(** * Thumbnail generator (index.js): a shallow embedding and its properties

    The Lambda handler of [index.js] fetches a video from the object store,
    has ffmpeg render one frame, uploads the frame next to the source and
    answers with a JSON envelope.  This file embeds the handler, its two
    helper functions and the JavaScript built-ins they rely on
    ([JSON.parse], [JSON.stringify], [String.prototype.replace] with the
    extension pattern, [Math.round] on doubles), then states and proves the
    properties of the specification against that embedding.  What the
    engine and the collaborators decide (the errors they raise, the depth
    of the stack, the answers of the store and of ffmpeg) is a parameter of
    the embedding. *)

From Stdlib Require Import ZArith NArith List Ascii String Lia Floats.
From Stdlib Require Import DecimalFacts DecimalPos DecimalN.
From stdpp Require Import base option list gmap.
Import ListNotations.

#[local] Set Warnings "-inexact-float".

Local Open Scope N_scope.

(** ** JavaScript strings

    A JavaScript string is a sequence of 16-bit code units.  Code units are
    kept as numbers, so that the escapes of JSON text (control characters,
    lone surrogates) can be modelled as the language defines them. *)

Definition code_unit : Type := N.
Definition jsstring : Type := list code_unit.

Definition str (s : string) : jsstring :=
  List.map N_of_ascii (list_ascii_of_string s).

(** ** JSON values

    Everything the handler receives is JSON data: the Lambda event, the
    request body once parsed.  An object keeps its members in source order;
    reading a property takes the last member of that name, as [JSON.parse]
    does for repeated keys.  A number is a double; [JNum m e] stands for the
    double nearest to [m * 10 ^ e], the value [JSON.parse] gives the literal
    with mantissa [m] and exponent [e]: zero when the decimal is too small
    ([number_is_zero]), an infinity when it is too large
    ([JSON.number_overflows]). *)

#[local] Unset Elimination Schemes.
Inductive json : Type :=
  | JNull
  | JBool (b : bool)
  | JNum (m e : Z)
  | JStr (s : jsstring)
  | JArr (items : list json)
  | JObj (members : list (jsstring * json)).
#[local] Set Elimination Schemes.

(** [undefined] only ever arises as the result of reading an absent
    property, so a JavaScript value is a JSON value or [undefined]. *)
Definition value : Type := option json.
Definition undefined : value := None.

Module JSON.

(** *** [JSON.stringify] (no indentation) *)

Definition hex_digit (d : N) : code_unit :=
  if d <? 10 then 48 + d else 87 + d.

Definition hex4 (c : code_unit) : jsstring :=
  [ hex_digit (c / 4096 mod 16); hex_digit (c / 256 mod 16);
    hex_digit (c / 16 mod 16); hex_digit (c mod 16) ].

Definition unicode_escape (c : code_unit) : jsstring :=
  92 :: 117 :: hex4 c.

Definition is_high_surrogate (c : code_unit) : bool :=
  (55296 <=? c) && (c <=? 56319).
Definition is_low_surrogate (c : code_unit) : bool :=
  (56320 <=? c) && (c <=? 57343).

(** One code unit that is not a surrogate, as QuoteJSONString writes it. *)
Definition quote_unit (c : code_unit) : jsstring :=
  if c =? 34 then [92; 34]
  else if c =? 92 then [92; 92]
  else if c =? 8 then [92; 98]
  else if c =? 9 then [92; 116]
  else if c =? 10 then [92; 110]
  else if c =? 12 then [92; 102]
  else if c =? 13 then [92; 114]
  else if c <? 32 then unicode_escape c
  else [c].

(** A surrogate pair is copied, a lone surrogate is escaped. *)
Fixpoint quote_units (s : jsstring) : jsstring :=
  match s with
  | [] => []
  | c :: r =>
      if is_high_surrogate c then
        match r with
        | d :: r' =>
            if is_low_surrogate d then c :: d :: quote_units r'
            else unicode_escape c ++ quote_units r
        | [] => unicode_escape c
        end
      else if is_low_surrogate c then unicode_escape c ++ quote_units r
      else quote_unit c ++ quote_units r
  end.

Definition quote (s : jsstring) : jsstring :=
  34 :: quote_units s ++ [34].

Fixpoint uint_units (u : Decimal.uint) : jsstring :=
  match u with
  | Decimal.Nil => []
  | Decimal.D0 u => 48 :: uint_units u
  | Decimal.D1 u => 49 :: uint_units u
  | Decimal.D2 u => 50 :: uint_units u
  | Decimal.D3 u => 51 :: uint_units u
  | Decimal.D4 u => 52 :: uint_units u
  | Decimal.D5 u => 53 :: uint_units u
  | Decimal.D6 u => 54 :: uint_units u
  | Decimal.D7 u => 55 :: uint_units u
  | Decimal.D8 u => 56 :: uint_units u
  | Decimal.D9 u => 57 :: uint_units u
  end.

Definition integer_units (z : Z) : jsstring :=
  (if (z <? 0)%Z then [45] else []) ++ uint_units (N.to_uint (Z.abs_N z)).

(** The double nearest to [m * 10 ^ e] is an infinity: the decimal is at
    least [2 ^ 1024 - 2 ^ 970], half-way between the largest double and
    [2 ^ 1024]. *)
Definition number_overflows (m e : Z) : bool :=
  if (e <? 0)%Z then ((2 ^ 1024 - 2 ^ 970) * 10 ^ (- e) <=? Z.abs m)%Z
  else (2 ^ 1024 - 2 ^ 970 <=? Z.abs m * 10 ^ e)%Z.

(** SerializeJSONProperty on a number: [null] when the number is not
    finite.  An integer below [2 ^ 53] without exponent is printed by its
    digits, as [Number.prototype.toString] prints it.  Any other finite
    number is written as its mantissa followed by its exponent, a text that
    [JSON.parse] reads as the same double but not the digits JavaScript
    chooses; the properties below that print a number are stated for
    [plain] values only. *)
Definition number_units (m e : Z) : jsstring :=
  if number_overflows m e then [110; 117; 108; 108]
  else integer_units m ++ (if (e =? 0)%Z then [] else 101 :: integer_units e).

Fixpoint stringify (v : json) : jsstring :=
  match v with
  | JNull => [110; 117; 108; 108]
  | JBool true => [116; 114; 117; 101]
  | JBool false => [102; 97; 108; 115; 101]
  | JNum m e => number_units m e
  | JStr s => quote s
  | JArr items =>
      91 :: (fix elements (l : list json) : jsstring :=
               match l with
               | [] => [93]
               | x :: l' =>
                   stringify x ++
                   match l' with
                   | [] => [93]
                   | _ :: _ => 44 :: elements l'
                   end
               end) items
  | JObj members =>
      123 :: (fix entries (l : list (jsstring * json)) : jsstring :=
                match l with
                | [] => [125]
                | (k, x) :: l' =>
                    quote k ++ 58 :: stringify x ++
                    match l' with
                    | [] => [125]
                    | _ :: _ => 44 :: entries l'
                    end
                end) members
  end.

(** *** [JSON.parse] *)

Definition is_ws (c : code_unit) : bool :=
  (c =? 32) || (c =? 9) || (c =? 10) || (c =? 13).

Fixpoint skip_ws (s : jsstring) : jsstring :=
  match s with
  | c :: r => if is_ws c then skip_ws r else s
  | [] => []
  end.

Definition unhex (c : code_unit) : option N :=
  if (48 <=? c) && (c <=? 57) then Some (c - 48)
  else if (97 <=? c) && (c <=? 102) then Some (c - 87)
  else if (65 <=? c) && (c <=? 70) then Some (c - 55)
  else None.

Definition unhex4 (a b c d : code_unit) : option code_unit :=
  match unhex a, unhex b, unhex c, unhex d with
  | Some x, Some y, Some z, Some w => Some (((x * 16 + y) * 16 + z) * 16 + w)
  | _, _, _, _ => None
  end.

Definition simple_escape (c : code_unit) : option code_unit :=
  if c =? 34 then Some 34
  else if c =? 92 then Some 92
  else if c =? 47 then Some 47
  else if c =? 98 then Some 8
  else if c =? 102 then Some 12
  else if c =? 110 then Some 10
  else if c =? 114 then Some 13
  else if c =? 116 then Some 9
  else None.

Definition prepend (c : code_unit) (r : option (jsstring * jsstring))
  : option (jsstring * jsstring) :=
  match r with
  | Some (x, rest) => Some (c :: x, rest)
  | None => None
  end.

(** The characters of a string literal, after its opening quote. *)
Fixpoint parse_chars (s : jsstring) : option (jsstring * jsstring) :=
  match s with
  | [] => None
  | c :: r =>
      if c =? 34 then Some ([], r)
      else if c =? 92 then
        match r with
        | [] => None
        | e :: r1 =>
            if e =? 117 then
              match r1 with
              | a :: b :: c' :: d :: r2 =>
                  match unhex4 a b c' d with
                  | Some u => prepend u (parse_chars r2)
                  | None => None
                  end
              | _ => None
              end
            else
              match simple_escape e with
              | Some u => prepend u (parse_chars r1)
              | None => None
              end
        end
      else if c <? 32 then None
      else prepend c (parse_chars r)
  end.

Definition digit_of (c : code_unit) : option (Decimal.uint -> Decimal.uint) :=
  if c =? 48 then Some Decimal.D0
  else if c =? 49 then Some Decimal.D1
  else if c =? 50 then Some Decimal.D2
  else if c =? 51 then Some Decimal.D3
  else if c =? 52 then Some Decimal.D4
  else if c =? 53 then Some Decimal.D5
  else if c =? 54 then Some Decimal.D6
  else if c =? 55 then Some Decimal.D7
  else if c =? 56 then Some Decimal.D8
  else if c =? 57 then Some Decimal.D9
  else None.

(** The longest run of digits at the head of the text. *)
Fixpoint take_uint (s : jsstring) : Decimal.uint * jsstring :=
  match s with
  | [] => (Decimal.Nil, [])
  | c :: r =>
      match digit_of c with
      | Some d => let (u, rest) := take_uint r in (d u, rest)
      | None => (Decimal.Nil, s)
      end
  end.

Definition take_fraction (s : jsstring) : option (Decimal.uint * jsstring) :=
  match s with
  | c :: r =>
      if c =? 46 then
        match take_uint r with
        | (Decimal.Nil, _) => None
        | (f, rest) => Some (f, rest)
        end
      else Some (Decimal.Nil, s)
  | [] => Some (Decimal.Nil, [])
  end.

Definition take_signed (s : jsstring) : option (Z * jsstring) :=
  let (negative, s1) :=
    match s with
    | c :: r => if c =? 45 then (true, r)
                else if c =? 43 then (false, r) else (false, s)
    | [] => (false, s)
    end in
  match take_uint s1 with
  | (Decimal.Nil, _) => None
  | (u, rest) =>
      let n := Z.of_N (N.of_uint u) in
      Some (if negative then (- n)%Z else n, rest)
  end.

Definition take_exponent (s : jsstring) : option (Z * jsstring) :=
  match s with
  | c :: r =>
      if (c =? 101) || (c =? 69) then take_signed r else Some (0%Z, s)
  | [] => Some (0%Z, [])
  end.

Definition parse_number (s : jsstring) : option (json * jsstring) :=
  let (negative, s1) :=
    match s with
    | c :: r => if c =? 45 then (true, r) else (false, s)
    | [] => (false, s)
    end in
  let (ip, s2) := take_uint s1 in
  match ip with
  | Decimal.Nil => None
  | Decimal.D0 (Decimal.D0 _ | Decimal.D1 _ | Decimal.D2 _ | Decimal.D3 _
               | Decimal.D4 _ | Decimal.D5 _ | Decimal.D6 _ | Decimal.D7 _
               | Decimal.D8 _ | Decimal.D9 _) => None
  | _ =>
      match take_fraction s2 with
      | None => None
      | Some (fp, s3) =>
          match take_exponent s3 with
          | None => None
          | Some (ex, s4) =>
              let n := Z.of_N (N.of_uint (Decimal.app ip fp)) in
              Some (JNum (if negative then (- n)%Z else n)
                         (ex - Z.of_nat (Decimal.nb_digits fp))%Z, s4)
          end
      end
  end.

Definition expect (word : jsstring) (s : jsstring) (v : json)
  : option (json * jsstring) :=
  if decide (take (length word) s = word)
  then Some (v, drop (length word) s) else None.

Section Composite.
Variable parse_value : jsstring -> option (json * jsstring).

(** The elements of a non-empty array, up to and including [']']. *)
Fixpoint parse_elements (n : nat) (s : jsstring)
  : option (list json * jsstring) :=
  match n with
  | O => None
  | S n' =>
      match parse_value s with
      | None => None
      | Some (v, r) =>
          match skip_ws r with
          | c :: r' =>
              if c =? 44 then
                match parse_elements n' r' with
                | Some (vs, r'') => Some (v :: vs, r'')
                | None => None
                end
              else if c =? 93 then Some ([v], r')
              else None
          | [] => None
          end
      end
  end.

(** The members of a non-empty object, up to and including ['}']. *)
Fixpoint parse_members (n : nat) (s : jsstring)
  : option (list (jsstring * json) * jsstring) :=
  match n with
  | O => None
  | S n' =>
      match skip_ws s with
      | q :: r0 =>
          if q =? 34 then
            match parse_chars r0 with
            | None => None
            | Some (k, r1) =>
                match skip_ws r1 with
                | c :: r2 =>
                    if c =? 58 then
                      match parse_value r2 with
                      | None => None
                      | Some (v, r3) =>
                          match skip_ws r3 with
                          | c' :: r4 =>
                              if c' =? 44 then
                                match parse_members n' r4 with
                                | Some (kvs, r5) => Some ((k, v) :: kvs, r5)
                                | None => None
                                end
                              else if c' =? 125 then Some ([(k, v)], r4)
                              else None
                          | [] => None
                          end
                      end
                    else None
                | [] => None
                end
            end
          else None
      | [] => None
      end
  end.
End Composite.

Fixpoint parse_value (fuel : nat) (s : jsstring) : option (json * jsstring) :=
  match fuel with
  | O => None
  | S fuel' =>
      match skip_ws s with
      | [] => None
      | c :: r =>
          if c =? 110 then expect [117; 108; 108] r JNull
          else if c =? 116 then expect [114; 117; 101] r (JBool true)
          else if c =? 102 then expect [97; 108; 115; 101] r (JBool false)
          else if c =? 34 then
            match parse_chars r with
            | Some (x, r') => Some (JStr x, r')
            | None => None
            end
          else if c =? 91 then
            match skip_ws r with
            | c' :: r' =>
                if c' =? 93 then Some (JArr [], r')
                else
                  match parse_elements (parse_value fuel') (length r) r with
                  | Some (l, r'') => Some (JArr l, r'')
                  | None => None
                  end
            | [] => None
            end
          else if c =? 123 then
            match skip_ws r with
            | c' :: r' =>
                if c' =? 125 then Some (JObj [], r')
                else
                  match parse_members (parse_value fuel') (length r) r with
                  | Some (l, r'') => Some (JObj l, r'')
                  | None => None
                  end
            | [] => None
            end
          else parse_number (c :: r)
      end
  end.

(** [JSON.parse text]: [None] stands for the SyntaxError it throws.  The
    nesting depth of a text is below its length, which bounds the
    recursion. *)
Definition parse (text : jsstring) : option json :=
  match parse_value (S (length text)) text with
  | Some (v, rest) =>
      match skip_ws rest with
      | [] => Some v
      | _ :: _ => None
      end
  | None => None
  end.

(** *** Notions used to reason about printed text *)

(** The elements of an array and the members of an object as [stringify]
    prints them, closing bracket included. *)
Fixpoint elements_units (l : list json) : jsstring :=
  match l with
  | [] => [93]
  | x :: l' =>
      stringify x ++ match l' with [] => [93] | _ :: _ => 44 :: elements_units l' end
  end.

Fixpoint members_units (l : list (jsstring * json)) : jsstring :=
  match l with
  | [] => [125]
  | (k, x) :: l' =>
      quote k ++ 58 :: stringify x ++
      match l' with [] => [125] | _ :: _ => 44 :: members_units l' end
  end.

(** What may follow a printed value: nothing, a comma, a closing bracket. *)
Definition delimited (rest : jsstring) : Prop :=
  match rest with
  | [] => True
  | c :: _ => c = 44 \/ c = 93 \/ c = 125
  end.

Definition no_digit (rest : jsstring) : Prop :=
  match rest with
  | [] => True
  | c :: _ => digit_of c = None
  end.

(** Every number of the value is an integer of magnitude below [2 ^ 53]
    written without exponent: a double holds it exactly and
    [JSON.stringify] prints it digit by digit. *)
Fixpoint plain (v : json) : bool :=
  match v with
  | JNum m e => (e =? 0)%Z && (Z.abs m <? 2 ^ 53)%Z
  | JArr items => forallb plain items
  | JObj members => forallb (fun '(_, x) => plain x) members
  | _ => true
  end.

(** A decimal without superfluous zeros. *)
Definition canonical (u : Decimal.uint) : Prop :=
  match u with
  | Decimal.Nil => False
  | Decimal.D0 Decimal.Nil => True
  | Decimal.D0 _ => False
  | _ => True
  end.

(** The first unit of a printed value: never white space, never a closing
    bracket. *)
Definition value_start (c : code_unit) : Prop :=
  c = 110 \/ c = 116 \/ c = 102 \/ c = 34 \/ c = 91 \/ c = 123 \/ c = 45 \/
  48 <= c <= 57.

End JSON.

(** ** The language operations the handler uses *)

(** [o.k] for the property names the program reads ([body], [bucket],
    [filepath]): none of them is an index or a built-in property, so only an
    object can hold one.  The last member of that name is the property. *)
Fixpoint lookup_member (k : jsstring) (l : list (jsstring * json)) : value :=
  match l with
  | [] => undefined
  | (k', v) :: l' =>
      match lookup_member k l' with
      | Some x => Some x
      | None => if decide (k' = k) then Some v else undefined
      end
  end.

Definition get_property (o : json) (k : jsstring) : value :=
  match o with
  | JObj members => lookup_member k members
  | _ => undefined
  end.

(** The double nearest to [m * 10 ^ e] is zero: the decimal is zero or at
    most half the least subnormal, [2 ^ -1075]. *)
Definition number_is_zero (m e : Z) : bool :=
  ((m =? 0) || ((e <? 0) && (Z.abs m * 2 ^ 1075 <=? 10 ^ (- e))))%Z.

(** ToBoolean. *)
Definition truthy (v : value) : bool :=
  match v with
  | None => false
  | Some JNull => false
  | Some (JBool b) => b
  | Some (JNum m e) => negb (number_is_zero m e)
  | Some (JStr s) => match s with [] => false | _ :: _ => true end
  | Some (JArr _) => true
  | Some (JObj _) => true
  end.

(** [path.join(dir, name)] for a normalised [dir] and a plain file name. *)
Definition path_join (dir name : jsstring) : jsstring := dir ++ 47 :: name.

(** *** [filepath.replace(/\.[^/.]+$/, '_thumbnail.jpg')] *)

(** The class [[^/.]]. *)
Definition extension_unit (c : code_unit) : bool :=
  negb (c =? 47) && negb (c =? 46).

(** The pattern [\.[^/.]+$] matched at the head of [s]: a dot, then one or
    more units of the class, then the end of the string. *)
Definition extension_at (s : jsstring) : bool :=
  match s with
  | c :: r =>
      (c =? 46) && match r with [] => false | _ :: _ => forallb extension_unit r end
  | [] => false
  end.

(** [replace] with a pattern without the [g] flag rewrites the leftmost
    match only; the replacement text has no [$] pattern. *)
Fixpoint replace_extension (s replacement : jsstring) : jsstring :=
  match s with
  | [] => []
  | c :: r =>
      if extension_at s then replacement
      else c :: replace_extension r replacement
  end.

Definition thumbnail_suffix : jsstring := str "_thumbnail.jpg".

Definition thumbnailKey (filepath : jsstring) : jsstring :=
  replace_extension filepath thumbnail_suffix.

(** *** Numbers of [generateThumbnail]: IEEE doubles *)

(** [Math.round]: the integer nearest to [x], ties towards plus infinity;
    zeros, infinities and NaN are returned as they are, and a result of
    zero keeps the sign of [x]. *)
Definition Math_round (x : float) : float :=
  match Prim2SF x with
  | S754_finite s m e =>
      if (e <? 0)%Z then
        let z := if s then Z.neg m else Z.pos m in
        let n := ((2 * z + 2 ^ (- e)) / 2 ^ (1 - e))%Z in
        SF2Prim (binary_normalize prec emax n 0 s)
      else x
  | _ => x
  end.

(** Lines 64-78 of [generateThumbnail]: the size handed to ffmpeg. *)
Definition thumbnail_size (originalWidth originalHeight : float)
  : float * float :=
  let width := 360%float in
  let height := Math_round ((width * 16) / 9)%float in
  let originalRatio := (originalHeight / originalWidth)%float in
  let targetRatio := (16 / 9)%float in
  if (0.1 <? abs (originalRatio - targetRatio))%float then
    if (targetRatio <? originalRatio)%float then
      (width, Math_round ((width * originalHeight) / originalWidth)%float)
    else
      (Math_round ((height * originalWidth) / originalHeight)%float, height)
  else (width, height).
(** ** The world around the handler *)

Definition bytes : Type := list Byte.byte.

(** A thrown [Error] object, as the catch block reads it. *)
Record js_error : Type := { error_message : jsstring; error_stack : jsstring }.

(** One entry of [metadata.streams] as ffprobe reports it; an audio stream
    has no [width] and no [height]. *)
Record ffprobe_stream : Type :=
  { codec_type : jsstring; width : option float; height : option float }.

(** The [Body] of a GetObject response is a stream: it ends after its data,
    or it emits ['error'] part-way. *)
Inductive body_stream : Type :=
  | BodyEnds (data : bytes)
  | BodyFails (received : bytes) (e : js_error).

(** A write stream finishes, or emits ['error'], leaving [rest] on disk. *)
Inductive write_outcome : Type :=
  | WriteFinishes
  | WriteFails (e : js_error) (rest : option bytes).

(** What the collaborators answer during one invocation. *)
Record world : Type :=
  { (** [s3Client.send(new GetObjectCommand({Bucket, Key}))] *)
    s3_get_object : value -> value -> js_error + body_stream;
    (** [s3Client.send(new PutObjectCommand({Bucket, Key, Body, ContentType}))] *)
    s3_put_object : value -> jsstring -> bytes -> jsstring -> option js_error;
    (** the same call when the file behind [Body] does not exist: the client
        rejects with an error, or the ['error'] event of the read stream
        finds no listener and the promise of [send] is never settled *)
    s3_put_unreadable : value -> jsstring -> jsstring -> option js_error;
    (** writing [data] through [fs.createWriteStream(path)] *)
    write_stream : jsstring -> bytes -> write_outcome;
    (** [ffmpeg.ffprobe(path, callback)]: [err], or [metadata.streams] *)
    ffprobe : option bytes -> js_error + list ffprobe_stream;
    (** [ffmpeg(input).screenshots({timestamps, size, ...})]: ['error'] with
        whatever was left at the output path, or ['end'] with the frame
        written, if one was: ffmpeg ends without a frame when the timestamp
        lies beyond the end of the video *)
    ffmpeg_screenshots :
      option bytes -> jsstring -> float * float ->
      js_error * option bytes + option bytes }.

(** The errors the JavaScript engine and [fs] raise by themselves. *)
Record engine : Type :=
  { (** the SyntaxError of [JSON.parse] on a text that is not JSON *)
    SyntaxError : jsstring -> js_error;
    (** the error of [JSON.stringify(v, null, 2)], if it raises one: a
        RangeError when [v] is nested deeper than the stack allows or its
        text is longer than a string may be *)
    stringify_throws : json -> option js_error;
    (** the TypeError of the member access [o.k] when [o] is [undefined] or
        [null] *)
    TypeError_property : value -> jsstring -> js_error;
    (** the TypeError of [const { k } = source] when the value [o] of
        [source] is [undefined] or [null] *)
    TypeError_destructure : jsstring -> value -> jsstring -> js_error;
    (** the TypeError of calling [filepath.replace] when it is no function *)
    TypeError_not_a_function : js_error;
    (** [ENOENT] for a path that does not exist *)
    ENOENT : jsstring -> js_error;
    (** the [stack] that [new Error(message)] captures on line 112 *)
    Error_stack : jsstring -> jsstring }.

Definition new_Error (en : engine) (message : jsstring) : js_error :=
  {| error_message := message; error_stack := Error_stack en message |}.

(** An object the store accepted. *)
Record s3_object : Type :=
  { Bucket : value; Key : jsstring; Body : bytes; ContentType : jsstring }.

(** The calls the program makes on its collaborators and on [fs]. *)
Inductive operation : Type :=
  | S3Get (bucket key : value)
  | S3Put (bucket : value) (key : jsstring) (contentType : jsstring)
  | Probe (input : jsstring)
  | Screenshots (input timestamp : jsstring) (size : float * float)
                (output : jsstring)
  | CreateWriteStream (path : jsstring)
  | ExistsSync (path : jsstring) (found : bool)
  | UnlinkSync (path : jsstring) (found : bool).

(** Local files, the objects written to the store, and the calls made so
    far, the latest first. *)
Record state : Type :=
  { files : gmap jsstring bytes;
    store : list s3_object;
    trace : list operation }.

Definition is_store_operation (o : operation) : bool :=
  match o with S3Get _ _ | S3Put _ _ _ => true | _ => false end.
Definition is_put (o : operation) : bool :=
  match o with S3Put _ _ _ => true | _ => false end.
Definition is_decoding_operation (o : operation) : bool :=
  match o with Probe _ | Screenshots _ _ _ _ => true | _ => false end.
(** [unlinkSync] on a path that does not exist: it raised. *)
Definition is_failed_unlink (o : operation) : bool :=
  match o with UnlinkSync _ false => true | _ => false end.

(** The removal of [path] was attempted: the file was unlinked, or looked
    for and found absent. *)
Definition removal_attempted (path : jsstring) (ops : list operation) : Prop :=
  UnlinkSync path true ∈ ops \/ ExistsSync path false ∈ ops.

(** ** Promises as a monad

    An [async] function body runs to one of three ends: it returns (the
    promise is fulfilled), it throws (the promise is rejected), or it awaits
    a promise that nobody settles and never continues. *)

Inductive completion (A : Type) : Type :=
  | Normal (a : A)
  | Throw (e : js_error)
  | Pending.
Arguments Normal {A} a.
Arguments Throw {A} e.
Arguments Pending {A}.

Definition M (A : Type) : Type := state -> completion A * state.

Definition ret {A} (a : A) : M A := fun s => (Normal a, s).
Definition throw {A} (e : js_error) : M A := fun s => (Throw e, s).

Definition bind {A B} (c : M A) (k : A -> M B) : M B :=
  fun s =>
    match c s with
    | (Normal a, s') => k a s'
    | (Throw e, s') => (Throw e, s')
    | (Pending, s') => (Pending, s')
    end.

(** [try { c } catch (error) { h error }] *)
Definition try_catch {A} (c : M A) (h : js_error -> M A) : M A :=
  fun s =>
    match c s with
    | (Throw e, s') => h e s'
    | r => r
    end.

Notation "x <- c ;; k" := (bind c (fun x => k))
  (at level 100, c at next level, right associativity).
Notation "c ;;; k" := (bind c (fun _ => k))
  (at level 100, right associativity).

Definition log (o : operation) (s : state) : state :=
  {| files := files s; store := store s; trace := o :: trace s |}.

Definition set_files (f : gmap jsstring bytes) (s : state) : state :=
  {| files := f; store := store s; trace := trace s |}.

Definition write_left (path : jsstring) (rest : option bytes)
    (f : gmap jsstring bytes) : gmap jsstring bytes :=
  match rest with
  | Some d => <[path := d]> f
  | None => f
  end.

(** The HTTP-style envelope the handler returns. *)
Record response : Type :=
  { statusCode : Z; headers : list (jsstring * jsstring); body : jsstring }.

Definition json_headers : list (jsstring * jsstring) :=
  [ (str "Content-Type", str "application/json");
    (str "Access-Control-Allow-Origin", str "*") ].

(** ** The program *)

Section Program.
Variable en : engine.
Variable w : world.
(** [process.env.AWS_LAMBDA_FUNCTION_VERSION !== undefined], [__dirname] *)
Variable isLambda : bool.
Variable __dirname : jsstring.

(** Line 16. *)
Definition tmpDir : jsstring :=
  if isLambda then str "/tmp" else path_join __dirname (str "tmp").

(** *** [fs] *)

Definition existsSync (path : jsstring) : M bool :=
  fun s =>
    let found := bool_decide (is_Some (files s !! path)) in
    (Normal found, log (ExistsSync path found) s).

Definition unlinkSync (path : jsstring) : M unit :=
  fun s =>
    match files s !! path with
    | Some _ =>
        (Normal tt, log (UnlinkSync path true) (set_files (delete path (files s)) s))
    | None => (Throw (ENOENT en path), log (UnlinkSync path false) s)
    end.

(** *** The store client *)

Definition send_GetObject (bucket key : value) : M body_stream :=
  fun s =>
    match s3_get_object w bucket key with
    | inl e => (Throw e, log (S3Get bucket key) s)
    | inr stream => (Normal stream, log (S3Get bucket key) s)
    end.

(** The body of the command is [fs.createReadStream(path)]: the stream
    opens the file only when it is read, so the client reads the file while
    sending; what comes of a file that does not exist is up to the client. *)
Definition send_PutObject (bucket : value) (key : jsstring)
    (path : jsstring) (contentType : jsstring) : M unit :=
  fun s =>
    let s1 := log (S3Put bucket key contentType) s in
    match files s !! path with
    | None =>
        match s3_put_unreadable w bucket key path with
        | Some e => (Throw e, s1)
        | None => (Pending, s1)
        end
    | Some data =>
        match s3_put_object w bucket key data contentType with
        | Some e => (Throw e, s1)
        | None =>
            (Normal tt,
             {| files := files s1;
                store := store s1 ++
                  [ {| Bucket := bucket; Key := key; Body := data;
                       ContentType := contentType |} ];
                trace := trace s1 |})
        end
    end.

(** *** The decoding tool *)

(** [ffmpeg(input).screenshots({timestamps: [timestamp], filename, folder,
    size}).on('end', resolve).on('error', reject)], where [output] is
    [folder/filename]: on ['end'] the frame, if ffmpeg produced one, has
    been written there; the promise is resolved either way. *)
Definition screenshots (input timestamp : jsstring) (size : float * float)
    (output : jsstring) : M unit :=
  fun s =>
    let s1 := log (Screenshots input timestamp size output) s in
    match ffmpeg_screenshots w (files s !! input) timestamp size with
    | inr frame => (Normal tt, set_files (write_left output frame (files s1)) s1)
    | inl (e, rest) => (Throw e, set_files (write_left output rest (files s1)) s1)
    end.

(** Lines 50-57. *)
Definition getVideoDimensions (inputPath : jsstring)
  : M (option ffprobe_stream) :=
  fun s =>
    match ffprobe w (files s !! inputPath) with
    | inl err => (Throw err, log (Probe inputPath) s)
    | inr streams => (Normal (head streams), log (Probe inputPath) s)
    end.

(** A missing [width] or [height] is [undefined], which arithmetic turns
    into NaN. *)
Definition to_number (x : option float) : float := default nan x.

(** Lines 60-91.  [path.dirname] and [path.basename] split [outputPath]
    into the folder and file name that ffmpeg joins again. *)
Definition generateThumbnail (inputPath outputPath : jsstring) : M unit :=
  stream <- getVideoDimensions inputPath ;;
  match stream with
  | None => throw (TypeError_destructure en (str "stream") undefined (str "width"))
  | Some st =>
      let size := thumbnail_size (to_number (width st)) (to_number (height st)) in
      screenshots inputPath (str "00:00:01.000") size outputPath
  end.

(** *** Streams *)

(** Lines 132-143: [response.Body.pipe(writeStream)] with ['error'] and
    ['finish'] listeners on the value of [pipe], which is [writeStream].
    [pipe] does not forward an error of its source and nothing listens on
    [response.Body]: when the body fails, the write stream is neither ended
    nor failed, and [resolve] and [reject] are never called. *)
Definition pipe_to_file (stream : body_stream) (path : jsstring) : M unit :=
  fun s =>
    let s1 := log (CreateWriteStream path) s in
    match stream with
    | BodyFails received _ =>
        (Pending, set_files (<[path := received]> (files s1)) s1)
    | BodyEnds data =>
        match write_stream w path data with
        | WriteFinishes => (Normal tt, set_files (<[path := data]> (files s1)) s1)
        | WriteFails err rest =>
            (Throw err, set_files (write_left path rest (files s1)) s1)
        end
    end.

(** [await streamPipeline(response.Body, writeStream)]: [stream.pipeline]
    rejects when either stream fails. *)
Definition streamPipeline (stream : body_stream) (path : jsstring) : M unit :=
  fun s =>
    let s1 := log (CreateWriteStream path) s in
    match stream with
    | BodyFails received err =>
        (Throw err, set_files (<[path := received]> (files s1)) s1)
    | BodyEnds data =>
        match write_stream w path data with
        | WriteFinishes => (Normal tt, set_files (<[path := data]> (files s1)) s1)
        | WriteFails err rest =>
            (Throw err, set_files (write_left path rest (files s1)) s1)
        end
    end.

(** Lines 94-98; no caller. *)
Definition streamS3ToFile (bucket key : value) (outputPath : jsstring)
  : M unit :=
  stream <- send_GetObject bucket key ;;
  streamPipeline stream outputPath.

(** *** Expressions of the handler *)

(** [o.k] where [o] may be [undefined] or [null]. *)
Definition read_property (o : value) (k : jsstring) : M value :=
  match o with
  | None | Some JNull => throw (TypeError_property en o k)
  | Some v => ret (get_property v k)
  end.

(** One property of the pattern in [const { ..., k, ... } = source], where
    [o] is the value of [source]. *)
Definition destructure (source : jsstring) (o : value) (k : jsstring)
  : M value :=
  match o with
  | None | Some JNull => throw (TypeError_destructure en source o k)
  | Some v => ret (get_property v k)
  end.

(** [console.log(label, JSON.stringify(v, null, 2))] on lines 101 and 106.
    The text goes to the log stream, which is not part of the state; what
    the statement can do to the invocation is raise while the text is
    built.  [JSON.stringify(undefined)] is [undefined] and raises nothing. *)
Definition log_json (v : value) : M unit :=
  match v with
  | None => ret tt
  | Some x =>
      match stringify_throws en x with
      | Some e => throw e
      | None => ret tt
      end
  end.

(** Line 105. *)
Definition parse_body (event_body : value) : M value :=
  match event_body with
  | Some (JStr text) =>
      match JSON.parse text with
      | Some v => ret (Some v)
      | None => throw (SyntaxError en text)
      end
  | _ => ret event_body
  end.

(** Line 167: only a string has a [replace] method among JSON values. *)
Definition replace_filepath (filepath : value) : M jsstring :=
  match filepath with
  | Some (JStr s) => ret (thumbnailKey s)
  | _ => throw (TypeError_not_a_function en)
  end.

Definition missing_parameters : jsstring :=
  str "Missing required parameters: bucket and filepath".

Definition success_response (thumbnailKey : jsstring) : response :=
  {| statusCode := 200;
     headers := json_headers;
     body := JSON.stringify
               (JObj [ (str "message", JStr (str "Thumbnail generated successfully"));
                       (str "thumbnailPath", JStr thumbnailKey) ]) |}.

Definition failure_response (error : js_error) : response :=
  {| statusCode := 500;
     headers := json_headers;
     body := JSON.stringify
               (JObj [ (str "message", JStr (str "Error generating thumbnail"));
                       (str "error", JStr (error_message error));
                       (str "stack", JStr (error_stack error)) ]) |}.

(** Lines 203-211. *)
Definition cleanup : M unit :=
  try_catch
    (let tmpVideoPath := path_join tmpDir (str "input.mp4") in
     let tmpThumbnailPath := path_join tmpDir (str "thumbnail.jpg") in
     video <- existsSync tmpVideoPath ;;
     (if video then unlinkSync tmpVideoPath else ret tt) ;;;
     thumbnail <- existsSync tmpThumbnailPath ;;
     (if thumbnail then unlinkSync tmpThumbnailPath else ret tt))
    (fun cleanupError => ret tt).

(** Lines 115-197: the four stages, the removal of the staged files and
    the success envelope. *)
Definition stages (bucket filepath : value) : M response :=
  let tmpVideoPath := path_join tmpDir (str "input.mp4") in
  let tmpThumbnailPath := path_join tmpDir (str "thumbnail.jpg") in
  response <- send_GetObject bucket filepath ;;
  pipe_to_file response tmpVideoPath ;;;
  screenshots tmpVideoPath (str "50%") (360%float, 640%float)
              (path_join tmpDir (str "thumbnail.jpg")) ;;;
  thumbnailKey <- replace_filepath filepath ;;
  send_PutObject bucket thumbnailKey tmpThumbnailPath (str "image/jpeg") ;;;
  unlinkSync tmpVideoPath ;;;
  unlinkSync tmpThumbnailPath ;;;
  ret (success_response thumbnailKey).

(** Lines 108-113, then the stages. *)
Definition validate (body : value) : M response :=
  bucket <- destructure (str "body") body (str "bucket") ;;
  filepath <- destructure (str "body") body (str "filepath") ;;
  if negb (truthy bucket) || negb (truthy filepath) then
    throw (new_Error en missing_parameters)
  else stages bucket filepath.

(** Lines 104-197, the [try] block. *)
Definition process (event : json) : M response :=
  event_body <- read_property (Some event) (str "body") ;;
  body <- parse_body event_body ;;
  log_json body ;;;
  validate body.

(** Lines 100-226.  Line 101 stands before the [try]: what it raises
    rejects the promise of the handler.  The other [console.log] and
    [console.error] calls print strings and [util.inspect] renderings,
    which raise nothing, and are left out. *)
Definition handler (event : json) : M response :=
  log_json (Some event) ;;;
  try_catch (process event)
    (fun error => cleanup ;;; ret (failure_response error)).

End Program.

(** ** Requests

    The payload an event carries: its [body], parsed when it is a string
    (line 105).  [None] when the body is missing or is not JSON text. *)
Definition request_payload (event : json) : option json :=
  match get_property event (str "body") with
  | Some (JStr text) => JSON.parse text
  | other => other
  end.

(** The two fields the handler destructures from the payload. *)
Definition request_bucket (payload : json) : value :=
  get_property payload (str "bucket").
Definition request_filepath (payload : json) : value :=
  get_property payload (str "filepath").


(** A key [stem ++ "." ++ ext] whose extension [ext] is not empty and holds
    no dot and no slash. *)
Definition has_extension (key stem ext : jsstring) : Prop :=
  key = stem ++ 46 :: ext /\ ext <> [] /\
  Forall (fun c => c <> 46 /\ c <> 47) ext.

(** ** A concrete world: every collaborator succeeds *)

(** The nesting depth of a value; a scalar has depth 0. *)
Fixpoint nesting (v : json) : nat :=
  match v with
  | JArr items => S (fold_right (fun x d => Nat.max (nesting x) d) O items)
  | JObj members =>
      S (fold_right (fun '(_, x) d => Nat.max (nesting x) d) O members)
  | _ => O
  end.

(** An engine whose stack holds a thousand nested values while
    [JSON.stringify] runs. *)
Definition stack_depth : nat := 1000.

Definition stack_overflow : js_error :=
  {| error_message := str "Maximum call stack size exceeded";
     error_stack := str "RangeError: Maximum call stack size exceeded" |}.

(** How an error message names [undefined] and [null]. *)
Definition nullish (o : value) : jsstring :=
  match o with
  | None => str "undefined"
  | Some _ => str "null"
  end.

Definition sample_engine : engine :=
  {| SyntaxError := fun _ =>
       {| error_message := str "Unexpected token in JSON";
          error_stack := str "SyntaxError: Unexpected token in JSON" |};
     stringify_throws := fun v =>
       if (stack_depth <? nesting v)%nat then Some stack_overflow else None;
     TypeError_property := fun o k =>
       {| error_message :=
            str "Cannot read properties of " ++ nullish o ++
            str " (reading '" ++ k ++ str "')";
          error_stack :=
            str "TypeError: Cannot read properties of " ++ nullish o ++
            str " (reading '" ++ k ++ str "')" |};
     TypeError_destructure := fun source o k =>
       {| error_message :=
            str "Cannot destructure property '" ++ k ++ str "' of '" ++ source ++
            str "' as it is " ++ nullish o ++ str ".";
          error_stack :=
            str "TypeError: Cannot destructure property '" ++ k ++ str "' of '" ++
            source ++ str "' as it is " ++ nullish o ++ str "." |};
     TypeError_not_a_function :=
       {| error_message := str "filepath.replace is not a function";
          error_stack := str "TypeError: filepath.replace is not a function" |};
     ENOENT := fun path =>
       {| error_message := str "ENOENT: no such file or directory " ++ path;
          error_stack := str "Error: ENOENT: no such file or directory " ++ path |};
     Error_stack := fun message => str "Error: " ++ message |}.

(** The error of a client that notices that the file to upload is missing. *)
Definition no_such_file : js_error :=
  {| error_message := str "ENOENT: no such file or directory, open";
     error_stack := str "Error: ENOENT: no such file or directory, open" |}.

Definition sample_video : bytes := [Byte.x00; Byte.x00; Byte.x00; Byte.x18].
Definition sample_jpeg : bytes := [Byte.xff; Byte.xd8; Byte.xff; Byte.xd9].

Definition video_stream : ffprobe_stream :=
  {| codec_type := str "video"; width := Some 1080%float; height := Some 1920%float |}.
Definition audio_stream : ffprobe_stream :=
  {| codec_type := str "audio"; width := None; height := None |}.

Definition sample_world : world :=
  {| s3_get_object := fun _ _ => inr (BodyEnds sample_video);
     s3_put_object := fun _ _ _ _ => None;
     s3_put_unreadable := fun _ _ _ => Some no_such_file;
     write_stream := fun _ _ => WriteFinishes;
     ffprobe := fun _ => inr [video_stream; audio_stream];
     ffmpeg_screenshots := fun _ _ _ => inr (Some sample_jpeg) |}.

Definition connection_reset : js_error :=
  {| error_message := str "aborted"; error_stack := str "Error: aborted" |}.

(** The body stream of the video breaks after two bytes. *)
Definition broken_download_world : world :=
  {| s3_get_object := fun _ _ =>
       inr (BodyFails [Byte.x00; Byte.x00] connection_reset);
     s3_put_object := fun _ _ _ _ => None;
     s3_put_unreadable := fun _ _ _ => Some no_such_file;
     write_stream := fun _ _ => WriteFinishes;
     ffprobe := fun _ => inr [video_stream];
     ffmpeg_screenshots := fun _ _ _ => inr (Some sample_jpeg) |}.

Definition decoder_error : js_error :=
  {| error_message := str "ffmpeg exited with code 1";
     error_stack := str "Error: ffmpeg exited with code 1" |}.

(** ffmpeg fails on every input. *)
Definition broken_decoder_world : world :=
  {| s3_get_object := fun _ _ => inr (BodyEnds sample_video);
     s3_put_object := fun _ _ _ _ => None;
     s3_put_unreadable := fun _ _ _ => Some no_such_file;
     write_stream := fun _ _ => WriteFinishes;
     ffprobe := fun _ => inr [video_stream];
     ffmpeg_screenshots := fun _ _ _ => inl (decoder_error, None) |}.

(** ffprobe reads an audio-only file. *)
Definition audio_only_world : world :=
  {| s3_get_object := fun _ _ => inr (BodyEnds sample_video);
     s3_put_object := fun _ _ _ _ => None;
     s3_put_unreadable := fun _ _ _ => Some no_such_file;
     write_stream := fun _ _ => WriteFinishes;
     ffprobe := fun _ => inr [audio_stream];
     ffmpeg_screenshots := fun _ _ _ => inr (Some sample_jpeg) |}.

Definition request (bucket filepath : string) : json :=
  JObj [ (str "bucket", JStr (str bucket)); (str "filepath", JStr (str filepath)) ].

(** The event of the local test script: the body is JSON text. *)
Definition text_event (payload : json) : json :=
  JObj [ (str "body", JStr (JSON.stringify payload)) ].

(** The same request with an already parsed body. *)
Definition parsed_event (payload : json) : json :=
  JObj [ (str "body", payload) ].

Definition initial_state : state := {| files := ∅; store := []; trace := [] |}.

(** The request of the local test script. *)
Definition test_request : json := request "test-bucket" "test/test-video.mp4".

(** A stream that carries pictures. *)
Definition is_video_stream (st : ffprobe_stream) : bool :=
  bool_decide (codec_type st = str "video").

(** ** The calls of one invocation *)

(** The invocation reaches the first stage: lines 101 and 106 print without
    raising and the request passes the check of line 111. *)
Definition accepted (en : engine) (event : json) : bool :=
  match stringify_throws en event, request_payload event with
  | None, Some payload =>
      match stringify_throws en payload with
      | None => truthy (request_bucket payload) && truthy (request_filepath payload)
      | Some _ => false
      end
  | _, _ => false
  end.

(** The [bucket] and [filepath] the handler destructures, [undefined] when
    there is no payload to read them from. *)
Definition event_bucket (event : json) : value :=
  match request_payload event with
  | Some payload => request_bucket payload
  | None => undefined
  end.
Definition event_filepath (event : json) : value :=
  match request_payload event with
  | Some payload => request_filepath payload
  | None => undefined
  end.

(** The key of line 167 for the [filepath] of a request. *)
Definition destination_key (filepath : value) : jsstring :=
  match filepath with
  | Some (JStr key) => thumbnailKey key
  | _ => []
  end.

(** The calls of lines 121-183 when every stage succeeds, the latest first. *)
Definition pipeline (dir : jsstring) (bucket filepath : value) : list operation :=
  [ UnlinkSync (path_join dir (str "thumbnail.jpg")) true;
    UnlinkSync (path_join dir (str "input.mp4")) true;
    S3Put bucket (destination_key filepath) (str "image/jpeg");
    Screenshots (path_join dir (str "input.mp4")) (str "50%")
      (360%float, 640%float) (path_join dir (str "thumbnail.jpg"));
    CreateWriteStream (path_join dir (str "input.mp4"));
    S3Get bucket filepath ].

(** The calls of the catch block. *)
Definition is_cleanup_operation (o : operation) : bool :=
  match o with ExistsSync _ _ | UnlinkSync _ _ => true | _ => false end.

Definition no_such_key : js_error :=
  {| error_message := str "The specified key does not exist.";
     error_stack := str "NoSuchKey: The specified key does not exist." |}.

(** The store has no such object. *)
Definition missing_object_world : world :=
  {| s3_get_object := fun _ _ => inl no_such_key;
     s3_put_object := fun _ _ _ _ => None;
     s3_put_unreadable := fun _ _ _ => Some no_such_file;
     write_stream := fun _ _ => WriteFinishes;
     ffprobe := fun _ => inr [video_stream];
     ffmpeg_screenshots := fun _ _ _ => inr (Some sample_jpeg) |}.





(** ffprobe fails on every file. *)
Definition broken_probe_world : world :=
  {| s3_get_object := fun _ _ => inr (BodyEnds sample_video);
     s3_put_object := fun _ _ _ _ => None;
     s3_put_unreadable := fun _ _ _ => Some no_such_file;
     write_stream := fun _ _ => WriteFinishes;
     ffprobe := fun _ => inl decoder_error;
     ffmpeg_screenshots := fun _ _ _ => inr (Some sample_jpeg) |}.

(** A local file that is none of the staged ones. *)
Definition kept_file : jsstring := str "/data/keep.txt".

Definition state_with_kept_file : state :=
  {| files := <[kept_file := sample_video]> ∅; store := []; trace := [] |}.

(** A request whose filepath is the number 5. *)
Definition numeric_filepath_request : json :=
  JObj [ (str "bucket", JStr (str "test-bucket")); (str "filepath", JNum 5 0) ].

(** A request whose bucket is the number 0. *)
Definition zero_bucket_request : json :=
  JObj [ (str "bucket", JNum 0 0); (str "filepath", JStr (str "videos/a.mp4")) ].


(** [n] arrays inside one another around [null]. *)
Fixpoint nested (n : nat) : json :=
  match n with
  | O => JNull
  | S n' => JArr [nested n']
  end.

(** A valid request with one more member, nested deeper than the stack of
    the sample engine holds. *)
Definition deep_request : json :=
  JObj [ (str "bucket", JStr (str "test-bucket"));
         (str "filepath", JStr (str "test/test-video.mp4"));
         (str "extra", nested stack_depth) ].


(** ffmpeg ends without writing a frame: the video is shorter than the
    timestamp asked for. *)
Definition short_video_world : world :=
  {| s3_get_object := fun _ _ => inr (BodyEnds sample_video);
     s3_put_object := fun _ _ _ _ => None;
     s3_put_unreadable := fun _ _ _ => Some no_such_file;
     write_stream := fun _ _ => WriteFinishes;
     ffprobe := fun _ => inr [video_stream];
     ffmpeg_screenshots := fun _ _ _ => inr None |}.

(** A thumbnail left in the staging directory by an earlier invocation. *)
Definition stale_jpeg : bytes := [Byte.xff; Byte.xd8; Byte.x00; Byte.xff; Byte.xd9].

Definition state_with_stale_thumbnail : state :=
  {| files := <[str "/tmp/thumbnail.jpg" := stale_jpeg]> ∅; store := []; trace := [] |}.

(** ** The aspect-ratio rule as the specification words it *)

(** A pixel count as a double. *)
Definition pixels (n : Z) : float := SF2Prim (binary_normalize prec emax n 0 false).

(** [|height / width - 16/9| <= 0.1] for positive integers, in exact
    arithmetic: [10 * |9 * height - 16 * width| <= 9 * width]. *)
Definition ratio_within_tenth (originalWidth originalHeight : Z) : bool :=
  (10 * Z.abs (9 * originalHeight - 16 * originalWidth) <=? 9 * originalWidth)%Z.

(** * Properties *)

(** ** The embedding at small inputs *)

Example thumbnailKey_mp4 :
  thumbnailKey (str "videos/a.mp4") = str "videos/a_thumbnail.jpg".
Proof. reflexivity. Qed.

Example thumbnailKey_last_extension_only :
  thumbnailKey (str "a.tar.gz") = str "a.tar_thumbnail.jpg".
Proof. reflexivity. Qed.

Example thumbnailKey_dot_in_folder :
  thumbnailKey (str "v1.2/clip") = str "v1.2/clip".
Proof. reflexivity. Qed.

Example parse_array :
  JSON.parse (str " [1, 2.50, -3e2, true, null, {}] ") =
    Some (JArr [JNum 1 0; JNum 250 (-2); JNum (-3) 2; JBool true; JNull; JObj []]).
Proof. vm_compute. reflexivity. Qed.

Example parse_rejects :
  JSON.parse (str "{bad") = None /\ JSON.parse (str "[1,]") = None /\
  JSON.parse (str "01") = None /\ JSON.parse (str "") = None.
Proof. repeat split; vm_compute; reflexivity. Qed.

Example stringify_escapes :
  JSON.stringify (JStr [10; 34; 55357; 56832; 55357; 1]) =
    [34] ++ str "\n\" ++ [34; 55357; 56832] ++ str "\ud83d\u0001" ++ [34].
Proof. vm_compute. reflexivity. Qed.

Example stringify_numbers :
  JSON.stringify (JArr [JNum 5 0; JNum (-12) 0; JNum 0 0; JNum 1 999; JNum (-1) 999]) =
    str "[5,-12,0,null,null]".
Proof. vm_compute. reflexivity. Qed.

Example numbers_as_doubles :
  JSON.number_overflows 17976931348623157 292 = false /\
  JSON.number_overflows 17976931348623159 292 = true /\
  truthy (Some (JNum 1 999)) = true /\ truthy (Some (JNum 1 (-999))) = false.
Proof. repeat split; vm_compute; reflexivity. Qed.

Example payload_of_text_event :
  request_payload (text_event test_request) = Some test_request.
Proof. vm_compute. reflexivity. Qed.

Example pixels_of_integers :
  pixels 720 = 720%float /\ pixels 1352 = 1352%float /\
  ratio_within_tenth 720 1352 = true /\ ratio_within_tenth 720 1353 = false /\
  ratio_within_tenth 1080 1920 = true /\ ratio_within_tenth 1920 1080 = false.
Proof. repeat split; vm_compute; reflexivity. Qed.

Example Math_round_ties :
  Math_round 2.5 = 3%float /\ Math_round (-2.5) = (-2)%float /\
  Math_round 1137.75 = 1138%float.
Proof. repeat split; vm_compute; reflexivity. Qed.

Example nesting_of_requests :
  nesting test_request = 1%nat /\ nesting (parsed_event test_request) = 2%nat /\
  nesting (text_event deep_request) = 1%nat /\
  stringify_throws sample_engine (text_event deep_request) = None /\
  stringify_throws sample_engine deep_request = Some stack_overflow /\
  stringify_throws sample_engine (parsed_event deep_request) = Some stack_overflow.
Proof. repeat split; vm_compute; reflexivity. Qed.

Example TypeError_wording :
  error_message (TypeError_property sample_engine (Some JNull) (str "body")) =
    str "Cannot read properties of null (reading 'body')" /\
  error_message (TypeError_destructure sample_engine (str "body") undefined (str "bucket")) =
    str "Cannot destructure property 'bucket' of 'body' as it is undefined." /\
  error_message (TypeError_destructure sample_engine (str "body") (Some JNull) (str "bucket")) =
    str "Cannot destructure property 'bucket' of 'body' as it is null.".
Proof. repeat split; vm_compute; reflexivity. Qed.

Example falsy_values :
  truthy undefined = false /\ truthy (Some (JStr [])) = false /\
  truthy (Some (JNum 0 0)) = false /\ truthy (Some JNull) = false /\
  truthy (Some (JStr (str "0"))) = true /\ truthy (Some (JArr [])) = true.
Proof. repeat split; reflexivity. Qed.

(** ** [JSON.parse] inverts [JSON.stringify] *)

Section JSONText.
Import JSON.

Lemma unhex_hex_digit d : d < 16 -> unhex (hex_digit d) = Some d.
Proof.
  intros H. unfold unhex, hex_digit.
  destruct (N.ltb_spec d 10).
  - replace ((48 <=? 48 + d) && (48 + d <=? 57)) with true; [f_equal; lia|].
    symmetry. apply andb_true_iff. split; apply N.leb_le; lia.
  - replace ((48 <=? 87 + d) && (87 + d <=? 57)) with false.
    2:{ symmetry. apply andb_false_iff. right. apply N.leb_gt. lia. }
    replace ((97 <=? 87 + d) && (87 + d <=? 102)) with true; [f_equal; lia|].
    symmetry. apply andb_true_iff. split; apply N.leb_le; lia.
Qed.

Lemma unhex4_hex4 c rest :
  c < 65536 ->
  match hex4 c ++ rest with
  | a :: b :: c' :: d :: r => unhex4 a b c' d = Some c /\ r = rest
  | _ => False
  end.
Proof.
  intros H. unfold hex4. cbn [app]. split; [|reflexivity].
  unfold unhex4.
  rewrite !unhex_hex_digit by (apply N.mod_lt; lia).
  f_equal.
  replace (c / 4096) with (c / 16 / 16 / 16) by (rewrite !N.Div0.div_div; reflexivity).
  replace (c / 256) with (c / 16 / 16) by (rewrite !N.Div0.div_div; reflexivity).
  pose proof (N.div_mod c 16). pose proof (N.div_mod (c / 16) 16).
  pose proof (N.div_mod (c / 16 / 16) 16).
  pose proof (N.mod_lt c 16). pose proof (N.mod_lt (c / 16) 16).
  pose proof (N.mod_lt (c / 16 / 16) 16).
  assert (c / 16 / 16 / 16 < 16).
  { rewrite !N.Div0.div_div. apply N.Div0.div_lt_upper_bound. simpl. lia. }
  rewrite (N.mod_small (c / 16 / 16 / 16)) by assumption.
  lia.
Qed.

Lemma parse_chars_unicode_escape c s :
  c < 65536 -> parse_chars (unicode_escape c ++ s) = prepend c (parse_chars s).
Proof.
  intros H. pose proof (unhex4_hex4 c s H) as U.
  unfold unicode_escape. cbn [app parse_chars]. 
  change (92 =? 34) with false. change (92 =? 92) with true.
  change (117 =? 117) with true. cbv iota.
  destruct (hex4 c ++ s) as [|a [|b [|c' [|d r]]]]; try contradiction.
  destruct U as [-> ->]. reflexivity.
Qed.

Lemma parse_chars_raw c s :
  c <> 34 -> c <> 92 -> 32 <= c ->
  parse_chars (c :: s) = prepend c (parse_chars s).
Proof.
  intros H1 H2 H3. cbn [parse_chars].
  destruct (N.eqb_spec c 34); [contradiction|].
  destruct (N.eqb_spec c 92); [contradiction|].
  destruct (N.ltb_spec c 32); [lia|]. reflexivity.
Qed.

Lemma parse_chars_quote_unit c s :
  parse_chars (quote_unit c ++ s) = prepend c (parse_chars s).
Proof.
  unfold quote_unit.
  repeat (match goal with
          | |- context [N.eqb c ?k] => destruct (N.eqb_spec c k); [subst; reflexivity|]
          end).
  destruct (N.ltb_spec c 32).
  - apply parse_chars_unicode_escape. lia.
  - apply parse_chars_raw; assumption.
Qed.

Lemma parse_chars_quote_units_bounded n :
  forall s rest, (length s <= n)%nat ->
    parse_chars (quote_units s ++ 34 :: rest) = Some (s, rest).
Proof.
  induction n as [|n IH]; intros s rest Hn.
  - destruct s; [reflexivity|simpl in Hn; lia].
  - destruct s as [|c r]; [reflexivity|].
    simpl in Hn. cbn [quote_units].
    destruct (is_high_surrogate c) eqn:Hh.
    + unfold is_high_surrogate in Hh. apply andb_true_iff in Hh as [H1 H2].
      apply N.leb_le in H1, H2.
      destruct r as [|d r'].
      * rewrite parse_chars_unicode_escape by lia. reflexivity.
      * destruct (is_low_surrogate d) eqn:Hl.
        -- unfold is_low_surrogate in Hl. apply andb_true_iff in Hl as [H3 H4].
           apply N.leb_le in H3, H4.
           rewrite <- !app_comm_cons.
           rewrite parse_chars_raw by lia.
           rewrite parse_chars_raw by lia.
           rewrite IH by (simpl in Hn; lia). reflexivity.
        -- rewrite <- app_assoc, parse_chars_unicode_escape by lia.
           rewrite IH by lia. reflexivity.
    + destruct (is_low_surrogate c) eqn:Hl.
      * unfold is_low_surrogate in Hl. apply andb_true_iff in Hl as [H3 H4].
        apply N.leb_le in H3, H4.
        rewrite <- app_assoc, parse_chars_unicode_escape by lia.
        rewrite IH by lia. reflexivity.
      * rewrite <- app_assoc, parse_chars_quote_unit.
        rewrite IH by lia. reflexivity.
Qed.

Lemma parse_chars_quote_units s rest :
  parse_chars (quote_units s ++ 34 :: rest) = Some (s, rest).
Proof. apply (parse_chars_quote_units_bounded (length s)). lia. Qed.

Lemma delimited_no_digit rest : delimited rest -> no_digit rest.
Proof. destruct rest as [|c r]; [easy|]. intros [->|[->| ->]]; reflexivity. Qed.

Lemma take_uint_uint_units u rest :
  no_digit rest -> take_uint (uint_units u ++ rest) = (u, rest).
Proof.
  intros D. induction u; cbn [uint_units app take_uint];
    try (match goal with
         | |- context [digit_of ?k] =>
             let d := eval vm_compute in (digit_of k) in
             change (digit_of k) with d
         end; cbv iota beta; rewrite IHu; reflexivity).
  destruct rest as [|c r]; [reflexivity|].
  cbn [take_uint]. red in D. rewrite D. reflexivity.
Qed.

Lemma nzhead_canonical u :
  Decimal.nzhead u = Decimal.Nil \/
  (canonical (Decimal.nzhead u) /\ Decimal.nzhead u <> Decimal.D0 Decimal.Nil).
Proof. induction u; cbn; auto; right; split; easy. Qed.

Lemma to_uint_canonical n : canonical (N.to_uint n).
Proof.
  rewrite <- (Unsigned.of_to n) at 1. rewrite Unsigned.to_of.
  unfold Decimal.unorm.
  destruct (nzhead_canonical (N.to_uint n)) as [->|[H _]]; [exact I|].
  revert H. destruct (Decimal.nzhead (N.to_uint n)); intros H; try exact H.
  destruct H.
Qed.

Lemma uint_units_head u :
  canonical u ->
  exists c r, uint_units u = c :: r /\ 48 <= c <= 57.
Proof.
  destruct u; [easy|..]; intros _; cbn [uint_units]; eexists _, _; (split; [reflexivity|lia]).
Qed.

Lemma integer_of_to z :
  Z.of_N (N.of_uint (N.to_uint (Z.abs_N z))) = Z.abs z.
Proof. rewrite Unsigned.of_to. lia. Qed.

Lemma take_signed_integer_units e rest :
  no_digit rest -> take_signed (integer_units e ++ rest) = Some (e, rest).
Proof.
  intros D. unfold integer_units, take_signed.
  pose proof (to_uint_canonical (Z.abs_N e)) as C.
  pose proof (integer_of_to e) as V.
  destruct (Z.ltb_spec e 0).
  - cbn [app]. change (45 =? 45) with true. cbv iota beta.
    rewrite take_uint_uint_units by assumption.
    destruct (N.to_uint (Z.abs_N e)); try contradiction; rewrite V; f_equal; f_equal; lia.
  - cbn [app].
    destruct (uint_units_head _ C) as (c & r & E & Hc).
    assert (T : take_uint (c :: r ++ rest) = (N.to_uint (Z.abs_N e), rest)).
    { rewrite app_comm_cons, <- E. apply take_uint_uint_units, D. }
    rewrite E. cbn [app].
    destruct (N.eqb_spec c 45); [lia|]. destruct (N.eqb_spec c 43); [lia|].
    rewrite T.
    destruct (N.to_uint (Z.abs_N e)); try contradiction; rewrite V; f_equal; f_equal; lia.
Qed.

(** A plain number is finite. *)
Lemma plain_number_finite m e :
  ((e =? 0) && (Z.abs m <? 2 ^ 53))%Z = true -> number_overflows m e = false.
Proof.
  intros H. apply andb_true_iff in H as [He Hm].
  apply Z.eqb_eq in He. apply Z.ltb_lt in Hm. subst e.
  unfold number_overflows. change (0 <? 0)%Z with false. cbv iota.
  apply Z.leb_gt. rewrite Z.pow_0_r, Z.mul_1_r.
  apply (Z.lt_trans _ _ _ Hm). reflexivity.
Qed.

Lemma parse_number_number_units m e rest :
  number_overflows m e = false -> delimited rest ->
  parse_number (number_units m e ++ rest) = Some (JNum m e, rest).
Proof.
  intros Hfinite D. unfold number_units. rewrite Hfinite, <- app_assoc.
  match goal with
  | |- context [integer_units m ++ ?t] => set (tail := t)
  end.
  assert (ND : no_digit tail).
  { subst tail. destruct (e =? 0)%Z; [apply delimited_no_digit, D|reflexivity]. }
  assert (TF : take_fraction tail = Some (Decimal.Nil, tail)).
  { subst tail. destruct (e =? 0)%Z.
    - destruct rest as [|c r]; [reflexivity|]. cbn [app take_fraction].
      destruct D as [->|[->| ->]]; reflexivity.
    - reflexivity. }
  assert (TE : take_exponent tail = Some (e, rest)).
  { subst tail. destruct (Z.eqb_spec e 0).
    - subst e. destruct rest as [|c r]; [reflexivity|]. cbn [app take_exponent].
      destruct D as [->|[->| ->]]; reflexivity.
    - cbn [app take_exponent]. change ((101 =? 101) || (101 =? 69)) with true.
      cbv iota. apply take_signed_integer_units, delimited_no_digit, D. }
  clearbody tail.
  pose proof (to_uint_canonical (Z.abs_N m)) as C.
  pose proof (integer_of_to m) as V.
  unfold integer_units, parse_number.
  destruct (Z.ltb_spec m 0).
  - cbn [app]. change (45 =? 45) with true. cbv iota beta.
    rewrite take_uint_uint_units by assumption.

    destruct (N.to_uint (Z.abs_N m)) as [|u|u|u|u|u|u|u|u|u|u]; try contradiction;
      try destruct u; try contradiction;
      rewrite TF, TE, DecimalFacts.app_nil_r, V; cbn [Decimal.nb_digits];
      repeat f_equal; lia.
  - cbn [app].
    destruct (uint_units_head _ C) as (c & r & E & Hc).
    assert (T : take_uint (c :: r ++ tail) = (N.to_uint (Z.abs_N m), tail)).
    { rewrite app_comm_cons, <- E. apply take_uint_uint_units, ND. }
    rewrite E. cbn [app].
    destruct (N.eqb_spec c 45); [lia|].
    rewrite T.
    destruct (N.to_uint (Z.abs_N m)) as [|u|u|u|u|u|u|u|u|u|u]; try contradiction;
      try destruct u; try contradiction;
      rewrite TF, TE, DecimalFacts.app_nil_r, V; cbn [Decimal.nb_digits];
      repeat f_equal; lia.
Qed.

Lemma stringify_JArr l : stringify (JArr l) = 91 :: elements_units l.
Proof. reflexivity. Qed.

Lemma stringify_JObj l : stringify (JObj l) = 123 :: members_units l.
Proof. reflexivity. Qed.

Lemma stringify_head v : exists c r, stringify v = c :: r /\ value_start c.
Proof.
  destruct v as [|[]|m e|s|l|l].
  - eexists _, _. split; [reflexivity|]. unfold value_start. tauto.
  - eexists _, _. split; [reflexivity|]. unfold value_start. tauto.
  - eexists _, _. split; [reflexivity|]. unfold value_start. tauto.
  - cbn [stringify]. unfold number_units, integer_units.
    destruct (number_overflows m e).
    { eexists _, _. split; [reflexivity|]. unfold value_start. tauto. }
    destruct (m <? 0)%Z.
    + eexists _, _. split; [reflexivity|]. unfold value_start. tauto.
    + destruct (uint_units_head _ (to_uint_canonical (Z.abs_N m))) as (c & r & E & Hc).
      cbn [app]. rewrite E. eexists _, _. split; [reflexivity|].
      unfold value_start. tauto.
  - eexists _, _. split; [reflexivity|]. unfold value_start. tauto.
  - rewrite stringify_JArr. eexists _, _. split; [reflexivity|]. unfold value_start. tauto.
  - rewrite stringify_JObj. eexists _, _. split; [reflexivity|]. unfold value_start. tauto.
Qed.

Lemma skip_ws_value_start c r : value_start c -> skip_ws (c :: r) = c :: r.
Proof.
  intros H. cbn [skip_ws]. replace (is_ws c) with false; [reflexivity|].
  unfold is_ws, value_start in *.
  symmetry. repeat (apply orb_false_iff; split); apply N.eqb_neq; lia.
Qed.

Lemma skip_ws_stringify v rest : skip_ws (stringify v ++ rest) = stringify v ++ rest.
Proof.
  destruct (stringify_head v) as (c & r & -> & H). apply skip_ws_value_start, H.
Qed.

Lemma elements_units_length x l :
  x ∈ l -> (length (stringify x) < length (elements_units l))%nat.
Proof.
  induction l as [|y l IH]; [inversion 1|].
  intros H. cbn [elements_units]. rewrite length_app.
  apply elem_of_cons in H as [->|H].
  - destruct l; simpl; lia.
  - specialize (IH H). destruct l; [inversion H|]. simpl in *. lia.
Qed.

Lemma members_units_length k x l :
  (k, x) ∈ l -> (length (stringify x) < length (members_units l))%nat.
Proof.
  induction l as [|[k' y] l IH]; [inversion 1|].
  intros H. cbn [members_units]. rewrite length_app. cbn [length]. rewrite length_app.
  apply elem_of_cons in H as [H|H].
  - inversion H; subst. destruct l; simpl; lia.
  - specialize (IH H). destruct l; [inversion H|]. simpl in *. lia.
Qed.

Lemma elements_units_count l : (length l <= length (elements_units l))%nat.
Proof.
  induction l as [|x l IH]; [simpl; lia|].
  cbn [elements_units]. rewrite length_app.
  destruct l; simpl in *; lia.
Qed.

Lemma members_units_count l : (length l <= length (members_units l))%nat.
Proof.
  induction l as [|[k x] l IH]; [simpl; lia|].
  cbn [members_units]. rewrite length_app. cbn [length]. rewrite length_app.
  destruct l; simpl in *; lia.
Qed.

Section Roundtrip.
Variable pv : jsstring -> option (json * jsstring).

Lemma parse_elements_units l : forall n rest,
  l <> [] ->
  (forall x r, x ∈ l -> delimited r -> pv (stringify x ++ r) = Some (x, r)) ->
  (length l <= n)%nat ->
  parse_elements pv n (elements_units l ++ rest) = Some (l, rest).
Proof.
  induction l as [|x l IH]; intros n rest Hne Hpv Hn; [congruence|].
  destruct n as [|n]; [simpl in Hn; lia|].
  cbn [elements_units parse_elements]. rewrite <- app_assoc.
  destruct l as [|y l].
  - rewrite Hpv; [|left|simpl; tauto]. reflexivity.
  - rewrite Hpv; [|left|simpl; tauto].
    cbn [app skip_ws]. change (is_ws 44) with false. cbv iota.
    change (44 =? 44) with true. cbv iota.
    rewrite IH; [reflexivity|congruence| |simpl in *; lia].
    intros x' r Hx. apply Hpv. right. exact Hx.
Qed.

Lemma parse_members_units l : forall n rest,
  l <> [] ->
  (forall k x r, (k, x) ∈ l -> delimited r -> pv (stringify x ++ r) = Some (x, r)) ->
  (length l <= n)%nat ->
  parse_members pv n (members_units l ++ rest) = Some (l, rest).
Proof.
  induction l as [|[k x] l IH]; intros n rest Hne Hpv Hn; [congruence|].
  destruct n as [|n]; [simpl in Hn; lia|].
  cbn [members_units parse_members]. unfold quote.
  rewrite <- !app_comm_cons. cbn [skip_ws]. change (is_ws 34) with false. cbv iota.
  change (34 =? 34) with true. cbv iota.
  rewrite <- !app_assoc. cbn [app]. rewrite parse_chars_quote_units.
  cbn [skip_ws]. change (is_ws 58) with false. cbv iota.
  change (58 =? 58) with true. cbv iota.
  destruct l as [|[k' y] l].
  - rewrite <- app_assoc, (Hpv k); [|left|simpl; tauto]. reflexivity.
  - rewrite <- app_assoc, (Hpv k); [|left|simpl; tauto].
    cbn [app skip_ws]. change (is_ws 44) with false. cbv iota.
    change (44 =? 44) with true. cbv iota.
    rewrite IH; [reflexivity|congruence| |simpl in *; lia].
    intros k0 x' r Hx. apply (Hpv k0). right. exact Hx.
Qed.
End Roundtrip.

Lemma number_units_head m e :
  number_overflows m e = false ->
  exists c r, number_units m e = c :: r /\ (c = 45 \/ 48 <= c <= 57).
Proof.
  intros Hfinite. unfold number_units, integer_units. rewrite Hfinite.
  destruct (m <? 0)%Z.
  - eexists _, _. split; [reflexivity|]. tauto.
  - destruct (uint_units_head _ (to_uint_canonical (Z.abs_N m))) as (c & r & E & Hc).
    cbn [app]. rewrite E. eexists _, _. split; [reflexivity|]. tauto.
Qed.

Lemma expect_word word rest v :
  expect word (word ++ rest) v = Some (v, rest).
Proof.
  unfold expect. rewrite take_app_length, drop_app_length.
  rewrite decide_True by reflexivity. reflexivity.
Qed.

Lemma parse_value_stringify fuel : forall v rest,
  plain v = true ->
  (length (stringify v) < fuel)%nat -> delimited rest ->
  parse_value fuel (stringify v ++ rest) = Some (v, rest).
Proof.
  induction fuel as [|fuel IH]; intros v rest Hplain Hlen D; [lia|].
  cbn [parse_value]. rewrite skip_ws_stringify.
  destruct v as [|[]|m e|s|l|l].
  - apply (expect_word [117; 108; 108]).
  - apply (expect_word [114; 117; 101]).
  - apply (expect_word [97; 108; 115; 101]).
  - cbn [stringify].
    pose proof (plain_number_finite m e Hplain) as Hfinite.
    pose proof (parse_number_number_units m e rest Hfinite D) as P.
    destruct (number_units_head m e Hfinite) as (c & r & E & Hc).
    rewrite E in *. cbn [app] in *.
    repeat match goal with
           | |- context [N.eqb c ?k] => destruct (N.eqb_spec c k); [lia|]
           end.
    exact P.
  - cbn [stringify]. unfold quote. cbn [app]. change (34 =? 110) with false.
    change (34 =? 116) with false. change (34 =? 102) with false.
    change (34 =? 34) with true. cbv iota.
    rewrite <- app_assoc. cbn [app]. rewrite parse_chars_quote_units. reflexivity.
  - rewrite stringify_JArr in *. cbn [app].
    change (91 =? 110) with false. change (91 =? 116) with false.
    change (91 =? 102) with false. change (91 =? 34) with false.
    change (91 =? 91) with true. cbv iota.
    destruct l as [|x l]; [reflexivity|].
    assert (Hne : x :: l <> []) by congruence.
    set (items := x :: l) in *. clearbody items.
    assert (E : skip_ws (elements_units items ++ rest) = elements_units items ++ rest).
    { destruct items as [|y items]; [congruence|]. cbn [elements_units].
      rewrite <- app_assoc. apply skip_ws_stringify. }
    rewrite E.
    assert (H93 : exists c r, elements_units items ++ rest = c :: r /\ c <> 93).
    { destruct items as [|y items]; [congruence|]. cbn [elements_units].
      destruct (stringify_head y) as (c & r & -> & Hc).
      eexists _, _. split; [reflexivity|]. unfold value_start in Hc. lia. }
    destruct H93 as (c & r & E' & Hc).
    rewrite E'. destruct (N.eqb_spec c 93); [contradiction|]. rewrite <- E'.
    rewrite parse_elements_units; [reflexivity|assumption| |].
    + intros y r' Hy Dr. apply IH; [| |assumption].
      * cbn [plain] in Hplain. rewrite forallb_forall in Hplain.
        apply Hplain, list_elem_of_In, Hy.
      * apply elements_units_length in Hy. cbn [length] in Hlen. lia.
    + rewrite length_app. pose proof (elements_units_count items). lia.
  - rewrite stringify_JObj in *. cbn [app].
    change (123 =? 110) with false. change (123 =? 116) with false.
    change (123 =? 102) with false. change (123 =? 34) with false.
    change (123 =? 91) with false. change (123 =? 123) with true. cbv iota.
    destruct l as [|x l]; [reflexivity|].
    assert (Hne : x :: l <> []) by congruence.
    set (items := x :: l) in *. clearbody items.
    assert (H : exists r, members_units items ++ rest = 34 :: r).
    { destruct items as [|[k y] items]; [congruence|]. cbn [members_units].
      unfold quote. eexists. reflexivity. }
    destruct H as (r & E).
    rewrite E. cbn [skip_ws]. change (is_ws 34) with false. cbv iota.
    change (34 =? 125) with false. cbv iota. rewrite <- E.
    rewrite parse_members_units; [reflexivity|assumption| |].
    + intros k y r' Hy Dr. apply IH; [| |assumption].
      * cbn [plain] in Hplain. rewrite forallb_forall in Hplain.
        apply (Hplain (k, y)), list_elem_of_In, Hy.
      * apply members_units_length in Hy. cbn [length] in Hlen. lia.
    + rewrite length_app. pose proof (members_units_count items). lia.
Qed.

(** [JSON.parse] inverts [JSON.stringify] on plain values. *)
Lemma parse_stringify v : plain v = true -> parse (stringify v) = Some v.
Proof.
  intros Hplain. unfold parse.
  pose proof (parse_value_stringify (S (length (stringify v))) v []) as H.
  rewrite app_nil_r in H. rewrite H; [reflexivity|exact Hplain|lia|exact I].
Qed.

End JSONText.

(** ** Runs of the handler *)

Section Properties.
Context (en : engine) (w : world) (isLambda : bool) (__dirname : jsstring).

#[local] Abbreviation tmpVideoPath :=
  (path_join (tmpDir isLambda __dirname) (str "input.mp4")).
#[local] Abbreviation tmpThumbnailPath :=
  (path_join (tmpDir isLambda __dirname) (str "thumbnail.jpg")).

Lemma staged_paths_distinct : tmpVideoPath <> tmpThumbnailPath.
Proof. unfold path_join. intros H. apply app_inv_head in H. discriminate H. Qed.

Ltac simpl_state := cbn [files store trace log set_files write_left fst snd].

(** The two files are gone once [cleanup] has run, whatever was there. *)
Lemma cleanup_run s :
  exists ops,
    cleanup en isLambda __dirname s =
      (Normal tt,
       {| files := delete tmpThumbnailPath (delete tmpVideoPath (files s));
          store := store s;
          trace := ops ++ trace s |}) /\
    removal_attempted tmpVideoPath ops /\
    removal_attempted tmpThumbnailPath ops /\
    forallb (fun o => negb (is_failed_unlink o)) ops = true /\
    forallb (fun o => negb (is_store_operation o || is_decoding_operation o)) ops = true.
Proof.
  pose proof staged_paths_distinct as Hne.
  unfold cleanup, try_catch, bind, existsSync, unlinkSync, ret. simpl_state.
  destruct (files s !! tmpVideoPath) as [v|] eqn:Hv.
  - rewrite bool_decide_true by eauto. simpl_state. rewrite Hv. simpl_state.
    rewrite lookup_delete_ne by exact Hne.
    destruct (files s !! tmpThumbnailPath) as [t|] eqn:Ht.
    + rewrite bool_decide_true by eauto. simpl_state.
      rewrite lookup_delete_ne, Ht by exact Hne. simpl_state.
      eexists [_; _; _; _]. split; [reflexivity|].
      unfold removal_attempted. repeat split; try reflexivity; left; set_solver.
    + rewrite bool_decide_false by (intros [? ?]; congruence). simpl_state.
      rewrite (delete_id (delete _ _)) by (rewrite lookup_delete_ne by exact Hne; exact Ht).
      eexists [_; _; _]. split; [reflexivity|].
      unfold removal_attempted. repeat split; try reflexivity; [left|right]; set_solver.
  - rewrite bool_decide_false by (intros [? ?]; congruence). simpl_state.
    rewrite (delete_id (files s)) by exact Hv.
    destruct (files s !! tmpThumbnailPath) as [t|] eqn:Ht.
    + rewrite bool_decide_true by eauto. simpl_state. rewrite Ht. simpl_state.
      eexists [_; _; _]. split; [reflexivity|].
      unfold removal_attempted. repeat split; try reflexivity; [right|left]; set_solver.
    + rewrite bool_decide_false by (intros [? ?]; congruence). simpl_state.
      rewrite delete_id by exact Ht.
      eexists [_; _]. split; [reflexivity|].
      unfold removal_attempted. repeat split; try reflexivity; right; set_solver.
Qed.


(** The catch block, entered with [error] in state [s1]. *)
Lemma catch_run error s1 :
  exists ops,
    (cleanup en isLambda __dirname ;;; ret (failure_response error)) s1 =
      (Normal (failure_response error),
       {| files := delete tmpThumbnailPath (delete tmpVideoPath (files s1));
          store := store s1;
          trace := ops ++ trace s1 |}) /\
    removal_attempted tmpVideoPath ops /\
    removal_attempted tmpThumbnailPath ops /\
    forallb (fun o => negb (is_failed_unlink o)) ops = true /\
    forallb (fun o => negb (is_store_operation o || is_decoding_operation o)) ops = true.
Proof.
  destruct (cleanup_run s1) as (ops & E & H).
  exists ops. split; [|exact H].
  unfold bind. rewrite E. reflexivity.
Qed.

(** Line 101, then the [try] block and the [catch] block. *)
Lemma handler_unfold event s :
  handler en w isLambda __dirname event s =
    match stringify_throws en event with
    | Some e => (Throw e, s)
    | None =>
        match process en w isLambda __dirname event s with
        | (Throw error, s1) =>
            (cleanup en isLambda __dirname ;;; ret (failure_response error)) s1
        | r => r
        end
    end.
Proof.
  unfold handler, log_json, bind at 1.
  destruct (stringify_throws en event); reflexivity.
Qed.

(** The [try] block up to the validation of the request. *)
Lemma process_payload event payload s :
  request_payload event = Some payload ->
  process en w isLambda __dirname event s =
    match stringify_throws en payload with
    | Some e => (Throw e, s)
    | None => validate en w isLambda __dirname (Some payload) s
    end.
Proof.
  unfold request_payload, process, bind, log_json.
  destruct event as [|b|m e|t|l|l]; cbn [get_property]; try discriminate.
  cbn [read_property get_property ret].
  destruct (lookup_member (str "body") l) as [[|b|m e|text|items|members]|];
    try discriminate;
    try (intros [= <-]; cbn [parse_body ret];
         match goal with
         | |- context [stringify_throws en ?v] => destruct (stringify_throws en v)
         end; reflexivity).
  cbn [parse_body]. intros ->. cbn [ret].
  destruct (stringify_throws en payload); reflexivity.
Qed.

Lemma process_no_payload event s :
  request_payload event = None ->
  exists error, process en w isLambda __dirname event s = (Throw error, s).
Proof.
  unfold request_payload, process, bind.
  destruct event as [|b|m e|t|l|l]; cbn [get_property];
    try (intros _; eexists; reflexivity).
  cbn [read_property get_property ret].
  destruct (lookup_member (str "body") l) as [[|b|m e|text|items|members]|];
    try discriminate; try (intros _; eexists; reflexivity).
  cbn [parse_body]. intros ->. eexists; reflexivity.
Qed.

Lemma validate_valid payload s :
  truthy (request_bucket payload) = true ->
  truthy (request_filepath payload) = true ->
  validate en w isLambda __dirname (Some payload) s =
    stages en w isLambda __dirname (request_bucket payload) (request_filepath payload) s.
Proof.
  unfold request_bucket, request_filepath, validate, bind.
  destruct payload; cbn [get_property truthy]; try discriminate.
  cbn [destructure get_property ret].
  intros -> ->. reflexivity.
Qed.

Lemma validate_invalid payload s :
  truthy (request_bucket payload) && truthy (request_filepath payload) = false ->
  exists error, validate en w isLambda __dirname (Some payload) s = (Throw error, s).
Proof.
  unfold request_bucket, request_filepath, validate, bind.
  destruct payload; try (intros _; eexists; reflexivity).
  cbn [destructure get_property ret].
  destruct (truthy (lookup_member (str "bucket") members)),
           (truthy (lookup_member (str "filepath") members));
    try discriminate; intros _; eexists; reflexivity.
Qed.

(** What the [try] block does before the first stage: it throws without
    touching anything, or it enters the stages with truthy fields. *)
Lemma process_run event s :
  (exists error, process en w isLambda __dirname event s = (Throw error, s)) \/
  (exists payload,
     request_payload event = Some payload /\
     stringify_throws en payload = None /\
     truthy (request_bucket payload) = true /\
     truthy (request_filepath payload) = true /\
     process en w isLambda __dirname event s =
       stages en w isLambda __dirname
         (request_bucket payload) (request_filepath payload) s).
Proof.
  destruct (request_payload event) as [payload|] eqn:P.
  - rewrite (process_payload _ _ _ P).
    destruct (stringify_throws en payload) as [e|] eqn:L; [left; eauto|].
    destruct (truthy (request_bucket payload)) eqn:B;
      [destruct (truthy (request_filepath payload)) eqn:F|].
    + right. exists payload. rewrite validate_valid by assumption. auto.
    + left. apply validate_invalid. rewrite B, F. reflexivity.
    + left. apply validate_invalid. rewrite B. reflexivity.
  - left. apply process_no_payload, P.
Qed.

Ltac unfold_stages :=
  unfold stages, bind, send_GetObject, pipe_to_file, screenshots,
    replace_filepath, send_PutObject, unlinkSync, ret, throw.


(** A failed extraction: nothing is sent to the store after the download. *)
Lemma stages_extraction_error bucket filepath data error leftover s :
  s3_get_object w bucket filepath = inr (BodyEnds data) ->
  write_stream w tmpVideoPath data = WriteFinishes ->
  ffmpeg_screenshots w (Some data) (str "50%") (360%float, 640%float)
    = inl (error, leftover) ->
  stages en w isLambda __dirname bucket filepath s =
    (Throw error,
     {| files := write_left tmpThumbnailPath leftover (<[tmpVideoPath := data]> (files s));
        store := store s;
        trace := Screenshots tmpVideoPath (str "50%") (360%float, 640%float)
                   tmpThumbnailPath
                 :: CreateWriteStream tmpVideoPath
                 :: S3Get bucket filepath :: trace s |}).
Proof.
  intros Hget Hwrite Hshot.
  unfold_stages.
  rewrite Hget. simpl_state. rewrite Hwrite. simpl_state.
  rewrite lookup_insert_eq, Hshot. reflexivity.
Qed.

(** A body stream that fails: the download never completes. *)
Lemma stages_body_fails bucket filepath received error s :
  s3_get_object w bucket filepath = inr (BodyFails received error) ->
  stages en w isLambda __dirname bucket filepath s =
    (Pending,
     {| files := <[tmpVideoPath := received]> (files s);
        store := store s;
        trace := CreateWriteStream tmpVideoPath :: S3Get bucket filepath :: trace s |}).
Proof. intros Hget. unfold_stages. rewrite Hget. reflexivity. Qed.

(** Every way the stages can end: with the success envelope, after all six
    calls and with both staged files removed; with an error, the store as
    it was and no [unlinkSync] having failed; or never, when the body
    stream of the download fails, or when ffmpeg ended without a frame, no
    thumbnail is staged and the client leaves the upload unsettled. *)
Lemma stages_run bucket filepath s :
  (exists key s1,
     stages en w isLambda __dirname bucket filepath s =
       (Normal (success_response (thumbnailKey key)), s1) /\
     filepath = Some (JStr key) /\
     files s1 !! tmpVideoPath = None /\ files s1 !! tmpThumbnailPath = None /\
     trace s1 = [ UnlinkSync tmpThumbnailPath true; UnlinkSync tmpVideoPath true;
                  S3Put bucket (thumbnailKey key) (str "image/jpeg");
                  Screenshots tmpVideoPath (str "50%") (360%float, 640%float)
                    tmpThumbnailPath;
                  CreateWriteStream tmpVideoPath; S3Get bucket filepath ] ++ trace s) \/
  (exists error s1 ops,
     stages en w isLambda __dirname bucket filepath s = (Throw error, s1) /\
     store s1 = store s /\ trace s1 = ops ++ trace s /\
     forallb (fun o => negb (is_failed_unlink o)) ops = true) \/
  (exists s1,
     stages en w isLambda __dirname bucket filepath s = (Pending, s1) /\
     ((exists received error,
         s3_get_object w bucket filepath = inr (BodyFails received error)) \/
      (exists video key,
         filepath = Some (JStr key) /\
         s3_get_object w bucket filepath = inr (BodyEnds video) /\
         ffmpeg_screenshots w (Some video) (str "50%") (360%float, 640%float)
           = inr None /\
         files s !! tmpThumbnailPath = None /\
         s3_put_unreadable w bucket (thumbnailKey key) tmpThumbnailPath = None))).
Proof.
  pose proof staged_paths_distinct as Hne.
  destruct (s3_get_object w bucket filepath) as [e|[data|received e]] eqn:Hget.
  - right; left. unfold_stages. rewrite Hget.
    eexists _, _, [_]. repeat split; reflexivity.
  - destruct (write_stream w tmpVideoPath data) as [|e leftover] eqn:Hwrite.
    + destruct (ffmpeg_screenshots w (Some data) (str "50%") (360%float, 640%float))
        as [[e leftover]|frame] eqn:Hshot.
      * right; left.
        rewrite (stages_extraction_error _ _ _ _ _ _ Hget Hwrite Hshot).
        eexists _, _, [_; _; _]. repeat split; reflexivity.
      * destruct filepath as [[| | |key| |]|];
          try (right; left; unfold_stages; rewrite Hget; simpl_state;
               rewrite Hwrite; simpl_state; rewrite lookup_insert_eq, Hshot;
               simpl_state; eexists _, _, [_; _; _]; repeat split; reflexivity).
        assert (Hvideo :
          write_left tmpThumbnailPath frame (<[tmpVideoPath := data]> (files s))
            !! tmpVideoPath = Some data).
        { destruct frame; cbn [write_left];
            rewrite ?(lookup_insert_ne _ tmpThumbnailPath tmpVideoPath)
              by (intros E; apply Hne; symmetry; exact E);
            apply lookup_insert_eq. }
        unfold_stages. rewrite Hget. simpl_state. rewrite Hwrite. simpl_state.
        rewrite lookup_insert_eq, Hshot. simpl_state.
        destruct (write_left tmpThumbnailPath frame (<[tmpVideoPath := data]> (files s))
                    !! tmpThumbnailPath) as [jpeg|] eqn:Hthumb.
        -- destruct (s3_put_object w bucket (thumbnailKey key) jpeg (str "image/jpeg"))
             as [e|] eqn:Hput.
           ++ right; left. eexists _, _, [_; _; _; _]. repeat split; reflexivity.
           ++ left. simpl_state. rewrite Hvideo. simpl_state.
              rewrite lookup_delete_ne, Hthumb by exact Hne. simpl_state.
              eexists _, _. split; [reflexivity|]. simpl_state.
              split; [reflexivity|].
              split; [rewrite lookup_delete_ne by (intros E; apply Hne; symmetry; exact E);
                      apply lookup_delete_eq|].
              split; [apply lookup_delete_eq|reflexivity].
        -- destruct (s3_put_unreadable w bucket (thumbnailKey key) tmpThumbnailPath)
             as [e|] eqn:Hunreadable.
           ++ right; left. eexists _, _, [_; _; _; _]. repeat split; reflexivity.
           ++ right; right. eexists. split; [reflexivity|]. right.
              destruct frame as [jpeg|]; cbn [write_left] in Hthumb.
              { rewrite lookup_insert_eq in Hthumb. discriminate Hthumb. }
              rewrite lookup_insert_ne in Hthumb by exact Hne.
              exists data, key. auto.
    + right; left. unfold_stages. rewrite Hget. simpl_state. rewrite Hwrite.
      eexists _, _, [_; _]. repeat split; reflexivity.
  - right; right. rewrite (stages_body_fails _ _ _ _ _ Hget). eauto 10.
Qed.

Lemma stages_normal bucket filepath s r s' :
  stages en w isLambda __dirname bucket filepath s = (Normal r, s') ->
  exists key,
    filepath = Some (JStr key) /\ r = success_response (thumbnailKey key) /\
    files s' !! tmpVideoPath = None /\ files s' !! tmpThumbnailPath = None /\
    trace s' = [ UnlinkSync tmpThumbnailPath true; UnlinkSync tmpVideoPath true;
                 S3Put bucket (thumbnailKey key) (str "image/jpeg");
                 Screenshots tmpVideoPath (str "50%") (360%float, 640%float)
                   tmpThumbnailPath;
                 CreateWriteStream tmpVideoPath; S3Get bucket filepath ] ++ trace s.
Proof.
  destruct (stages_run bucket filepath s)
    as [(key & s1 & E & Hk & Hv & Ht & Htr)
       |[(error & s1 & ops & E & _)|(s1 & E & _)]].
  - rewrite E. intros [= <- <-]. exists key. auto.
  - rewrite E. discriminate.
  - rewrite E. discriminate.
Qed.



(** The handler's completion: the error of line 101, or what the [try]
    block produced, a thrown error turned into the failure envelope. *)
Lemma handler_completion event s :
  fst (handler en w isLambda __dirname event s) =
    match stringify_throws en event with
    | Some e => Throw e
    | None =>
        match fst (process en w isLambda __dirname event s) with
        | Throw error => Normal (failure_response error)
        | c => c
        end
    end.
Proof.
  rewrite handler_unfold.
  destruct (stringify_throws en event); [reflexivity|].
  destruct (process en w isLambda __dirname event s) as [[r|error|] s1]; try reflexivity.
  destruct (catch_run error s1) as (ops & E & _). rewrite E. reflexivity.
Qed.
End Properties.

(** ** The extension pattern *)

Lemma extension_unit_spec c : extension_unit c = true <-> c <> 46 /\ c <> 47.
Proof.
  unfold extension_unit. rewrite andb_true_iff, !negb_true_iff, !N.eqb_neq. tauto.
Qed.

Lemma extension_at_spec s :
  extension_at s = true <-> exists ext, has_extension s [] ext.
Proof.
  unfold has_extension. split.
  - destruct s as [|c r]; [discriminate|]. cbn [extension_at].
    rewrite andb_true_iff, N.eqb_eq. intros [-> H].
    exists r. destruct r as [|d r]; [discriminate|].
    repeat split; [discriminate|].
    apply Forall_forall. intros x Hx. apply extension_unit_spec.
    rewrite forallb_forall in H. apply H. apply list_elem_of_In, Hx.
  - intros (ext & -> & Hne & Hall). cbn [app extension_at].
    change (46 =? 46) with true. cbn [andb].
    destruct ext as [|d r]; [congruence|].
    apply forallb_forall. intros x Hx. apply extension_unit_spec.
    rewrite Forall_forall in Hall. apply Hall, list_elem_of_In, Hx.
Qed.

(** No match can start before the dot of the extension: the dot itself is
    outside the class. *)
Lemma extension_at_before c stem ext :
  extension_at (c :: stem ++ 46 :: ext) = false.
Proof.
  cbn [extension_at]. apply andb_false_iff. right.
  destruct (stem ++ 46 :: ext) eqn:E; [reflexivity|]. rewrite <- E.
  apply not_true_is_false. rewrite forallb_forall. intros H.
  specialize (H 46). rewrite in_app_iff in H.
  specialize (H (or_intror (or_introl eq_refl))). discriminate H.
Qed.

Lemma replace_extension_with_extension key stem ext replacement :
  has_extension key stem ext ->
  replace_extension key replacement = stem ++ replacement.
Proof.
  intros (-> & Hne & Hall).
  induction stem as [|c stem IH].
  - cbn [app replace_extension].
    replace (extension_at (46 :: ext)) with true; [reflexivity|].
    symmetry. apply extension_at_spec. exists ext. repeat split; assumption.
  - cbn [app replace_extension]. rewrite extension_at_before.
    rewrite IH. reflexivity.
Qed.

Lemma replace_extension_without_extension key replacement :
  (forall stem ext, ~ has_extension key stem ext) ->
  replace_extension key replacement = key.
Proof.
  enough (G : forall s pre,
            (forall stem ext, ~ has_extension (pre ++ s) stem ext) ->
            replace_extension s replacement = s).
  { intros H. apply (G key []). exact H. }
  induction s as [|c s IH]; intros pre H; [reflexivity|].
  cbn [replace_extension].
  destruct (extension_at (c :: s)) eqn:E.
  - apply extension_at_spec in E as (ext & E & Hne & Hall).
    exfalso. apply (H pre ext). cbn [app] in E. rewrite E.
    repeat split; assumption.
  - f_equal. apply (IH (pre ++ [c])). intros stem ext.
    rewrite <- app_assoc. apply H.
Qed.

(** With an extension, the key of the thumbnail ends in the suffix and
    differs from the key of the video. *)
Lemma thumbnailKey_with_extension key stem ext :
  has_extension key stem ext ->
  thumbnailKey key = stem ++ thumbnail_suffix /\ thumbnailKey key <> key.
Proof.
  intros H. unfold thumbnailKey.
  rewrite (replace_extension_with_extension _ _ _ _ H).
  split; [reflexivity|]. destruct H as (-> & _). intros E.
  apply app_inv_head in E. discriminate E.
Qed.

Section Claims.
Context (en : engine) (w : world) (isLambda : bool) (__dirname : jsstring).

#[local] Abbreviation tmpVideoPath :=
  (path_join (tmpDir isLambda __dirname) (str "input.mp4")).
#[local] Abbreviation tmpThumbnailPath :=
  (path_join (tmpDir isLambda __dirname) (str "thumbnail.jpg")).
#[local] Abbreviation run := (handler en w isLambda __dirname).



(** C6.  When the stages run (lines 101 and 106 print without raising, the
    request is valid), the download has succeeded and the decoding tool
    reports an error during the extraction, the handler answers with status
    500, carrying that error, and sends no put to the store: the objects of
    the store are those from before the invocation. *)
Theorem handler_extraction_error_writes_nothing
    event payload video error leftover s :
  stringify_throws en event = None ->
  request_payload event = Some payload ->
  stringify_throws en payload = None ->
  truthy (request_bucket payload) = true ->
  truthy (request_filepath payload) = true ->
  s3_get_object w (request_bucket payload) (request_filepath payload)
    = inr (BodyEnds video) ->
  write_stream w tmpVideoPath video = WriteFinishes ->
  ffmpeg_screenshots w (Some video) (str "50%") (360%float, 640%float)
    = inl (error, leftover) ->
  exists ops,
    fst (run event s) = Normal (failure_response error) /\
    statusCode (failure_response error) = 500%Z /\
    store (snd (run event s)) = store s /\
    trace (snd (run event s)) = ops ++ trace s /\
    List.filter is_put ops = [].
Proof.
  intros Hlog Hp Hlogb Hb Hf Hget Hwrite Hshot.
  rewrite handler_unfold, Hlog, (process_payload _ _ _ _ _ _ _ Hp), Hlogb.
  rewrite validate_valid by assumption.
  rewrite (stages_extraction_error _ _ _ _ _ _ _ _ _ _ Hget Hwrite Hshot).
  match goal with
  | |- context [bind _ _ ?s1] =>
      destruct (catch_run en isLambda __dirname error s1)
        as (ops & C & _ & _ & _ & Hops); rewrite C
  end.
  cbn [fst snd store trace].
  eexists (ops ++ [_; _; _]). rewrite <- app_assoc.
  repeat split.
  rewrite List.filter_app. cbn [List.filter is_put]. rewrite app_nil_r.
  clear C. induction ops as [|o ops IH]; [reflexivity|].
  cbn [forallb List.filter] in *. apply andb_true_iff in Hops as [Ho Hops].
  destruct o; try discriminate Ho; cbn [is_put]; auto.
Qed.


(** C10.  Every response the handler returns, the 500 envelope as well as
    the 200 envelope, carries [Content-Type: application/json] and
    [Access-Control-Allow-Origin: *]. *)
Theorem handler_response_headers event s r :
  fst (run event s) = Normal r ->
  headers r = [ (str "Content-Type", str "application/json");
                (str "Access-Control-Allow-Origin", str "*") ] /\
  (statusCode r = 200%Z \/ statusCode r = 500%Z).
Proof.
  rewrite handler_completion.
  destruct (stringify_throws en event) as [e|]; [discriminate|].
  destruct (process en w isLambda __dirname event s) as [[r1|error|] s1] eqn:E;
    cbn [fst]; try discriminate; intros [= <-].
  - destruct (process_run en w isLambda __dirname event s)
      as [(error & E')|(payload & _ & _ & _ & _ & E')]; [congruence|].
    rewrite E' in E.
    destruct (stages_normal _ _ _ _ _ _ _ _ _ E) as (key & _ & -> & _).
    split; [reflexivity|left; reflexivity].
  - split; [reflexivity|right; reflexivity].
Qed.

(** Every way an invocation can end.  The handler fulfils with status 200,
    or with status 500 and a JSON body holding the three strings [message],
    [error] and [stack] of the caught error.  It rejects exactly when the
    logging of the event on line 101, which stands before the [try],
    raises; the error is the one raised there.  With collaborators that
    answer every call, it stays pending only when the body stream of the
    download of a valid request fails, or when ffmpeg ended without a
    frame, no thumbnail was staged beforehand and the store client leaves
    the upload of the missing file unsettled. *)
Theorem handler_settles event s :
  match fst (run event s) with
  | Normal r =>
      stringify_throws en event = None /\
      (statusCode r = 200%Z \/
       (statusCode r = 500%Z /\
        exists error,
          JSON.parse (body r) =
            Some (JObj [ (str "message", JStr (str "Error generating thumbnail"));
                         (str "error", JStr (error_message error));
                         (str "stack", JStr (error_stack error)) ])))
  | Throw e => stringify_throws en event = Some e
  | Pending =>
      stringify_throws en event = None /\
      exists payload,
        request_payload event = Some payload /\
        ((exists received error,
            s3_get_object w (request_bucket payload) (request_filepath payload)
              = inr (BodyFails received error)) \/
         (exists video key,
            request_filepath payload = Some (JStr key) /\
            ffmpeg_screenshots w (Some video) (str "50%") (360%float, 640%float)
              = inr None /\
            files s !! tmpThumbnailPath = None /\
            s3_put_unreadable w (request_bucket payload) (thumbnailKey key)
              tmpThumbnailPath = None))
  end.
Proof.
  rewrite handler_completion.
  destruct (stringify_throws en event) as [e|]; [reflexivity|].
  destruct (process_run en w isLambda __dirname event s)
    as [(error & E)|(payload & Hp & _ & _ & _ & E)]; rewrite E.
  - cbn [fst]. split; [reflexivity|]. right. split; [reflexivity|].
    exists error. apply parse_stringify. reflexivity.
  - destruct (stages_run en w isLambda __dirname
                (request_bucket payload) (request_filepath payload) s)
      as [(key & s1 & E1 & _)
         |[(error & s1 & ops & E1 & _)|(s1 & E1 & Hcause)]].
    + rewrite E1. cbn [fst]. split; [reflexivity|]. left. reflexivity.
    + rewrite E1. cbn [fst]. split; [reflexivity|]. right. split; [reflexivity|].
      exists error. apply parse_stringify. reflexivity.
    + rewrite E1. cbn [fst]. split; [reflexivity|]. exists payload.
      split; [exact Hp|].
      destruct Hcause as [H|(video & key & Hk & _ & Hshot & Hthumb & Hu)];
        [left; exact H|right; eauto 10].
Qed.

(** The helper of lines 94-98 rejects when the body stream fails. *)
Lemma streamS3ToFile_rejects bucket key outputPath received error s :
  s3_get_object w bucket key = inr (BodyFails received error) ->
  fst (streamS3ToFile w bucket key outputPath s) = Throw error.
Proof.
  intros Hget. unfold streamS3ToFile, bind, send_GetObject, streamPipeline.
  rewrite Hget. reflexivity.
Qed.


End Claims.

(** ** The claims at concrete inputs *)




Lemma handler_extraction_error_writes_nothing_witness :
  exists ops,
    fst (handler sample_engine broken_decoder_world true [] (text_event test_request)
           initial_state) = Normal (failure_response decoder_error) /\
    statusCode (failure_response decoder_error) = 500%Z /\
    store (snd (handler sample_engine broken_decoder_world true []
                  (text_event test_request) initial_state)) = store initial_state /\
    trace (snd (handler sample_engine broken_decoder_world true []
                  (text_event test_request) initial_state))
      = ops ++ trace initial_state /\
    List.filter is_put ops = [].
Proof.
  apply (handler_extraction_error_writes_nothing sample_engine broken_decoder_world
           true [] (text_event test_request) test_request sample_video
           decoder_error None);
    vm_compute; reflexivity.
Defined.


Lemma handler_response_headers_witness :
  headers (failure_response (new_Error sample_engine missing_parameters)) =
    [ (str "Content-Type", str "application/json");
      (str "Access-Control-Allow-Origin", str "*") ] /\
  (statusCode (failure_response (new_Error sample_engine missing_parameters)) = 200%Z \/
   statusCode (failure_response (new_Error sample_engine missing_parameters)) = 500%Z).
Proof.
  apply (handler_response_headers sample_engine sample_world true []
           (parsed_event (JObj [])) initial_state).
  vm_compute. reflexivity.
Defined.



(** A payload that is itself a string is not treated alike in the two
    forms: as text it parses to the string and fails validation, given
    directly it is taken for JSON text and fails to parse. *)
Lemma handler_string_payload_differs :
  fst (handler sample_engine sample_world true []
         (text_event (JStr (str "x"))) initial_state)
  <> fst (handler sample_engine sample_world true []
            (parsed_event (JStr (str "x"))) initial_state).
Proof. vm_compute. discriminate. Qed.

(** C2.  The request of the local test script, when the body stream of the
    video fails during the download: the handler neither returns a response
    nor rejects, its promise never settles, so no status 500 envelope is
    produced.  (The unused helper [streamS3ToFile] does reject there.) *)
Theorem handler_pending_when_body_stream_fails :
  fst (handler sample_engine broken_download_world true []
         (text_event test_request) initial_state) = Pending /\
  fst (streamS3ToFile broken_download_world
         (Some (JStr (str "test-bucket"))) (Some (JStr (str "test/test-video.mp4")))
         (str "/tmp/input.mp4") initial_state) = Throw connection_reset.
Proof. split; vm_compute; reflexivity. Qed.

(** C4.  A source key without extension, [videos/a]: the derived key is the
    source key itself, without the suffix, and the handler writes the
    thumbnail over the source object. *)
Theorem thumbnailKey_without_extension_is_source_key :
  thumbnailKey (str "videos/a") = str "videos/a" /\
  store (snd (handler sample_engine sample_world true []
                (parsed_event (request "test-bucket" "videos/a")) initial_state)) =
    [ {| Bucket := Some (JStr (str "test-bucket")); Key := str "videos/a";
         Body := sample_jpeg; ContentType := str "image/jpeg" |} ].
Proof. split; vm_compute; reflexivity. Qed.

(** ** Doubles *)




Lemma base_height : Math_round ((360 * 16) / 9)%float = 640%float.
Proof. vm_compute. reflexivity. Qed.



(** Rounding at the boundary: for a 90 x 169 source the exact ratio differs
    from 16/9 by one tenth, the doubles differ by a little more, and the
    height is recomputed. *)
Lemma thumbnail_size_boundary :
  (0.1 <? abs (169 / 90 - 16 / 9))%float = true /\
  thumbnail_size 90 169 = (360%float, 676%float).
Proof. split; vm_compute; reflexivity. Qed.


(** ** Video inspection *)

(** C8, as stated, fails: ffprobe reads an audio-only file without error,
    the file has no video stream, and the inspection returns the audio
    stream instead of failing. *)
Lemma getVideoDimensions_audio_only_does_not_fail :
  ~ (forall (w : world) (inputPath : jsstring) (s : state)
            (streams : list ffprobe_stream),
       ffprobe w (files s !! inputPath) = inr streams ->
       List.filter is_video_stream streams = [] ->
       exists error, fst (getVideoDimensions w inputPath s) = Throw error).
Proof.
  intros H.
  destruct (H audio_only_world (str "/tmp/input.mp4") initial_state [audio_stream]
              eq_refl eq_refl) as [error E].
  vm_compute in E. discriminate E.
Qed.

(** C8, amended.  The inspection fails exactly when the probe reports an
    error, with that error; otherwise it returns the first stream of the
    metadata, whatever its kind, and [undefined] when there is none.
    [generateThumbnail] takes the width and height from that stream (a
    missing one counts as NaN) and raises a TypeError when the stream is
    [undefined]. *)
Theorem getVideoDimensions_returns_first_stream
    (en : engine) (w : world) (inputPath outputPath : jsstring) (s : state) :
  (forall err, ffprobe w (files s !! inputPath) = inl err ->
     fst (getVideoDimensions w inputPath s) = Throw err) /\
  (forall streams, ffprobe w (files s !! inputPath) = inr streams ->
     fst (getVideoDimensions w inputPath s) = Normal (head streams)) /\
  (forall error, fst (getVideoDimensions w inputPath s) = Throw error ->
     ffprobe w (files s !! inputPath) = inl error) /\
  (forall st rest, ffprobe w (files s !! inputPath) = inr (st :: rest) ->
     generateThumbnail en w inputPath outputPath s =
       screenshots w inputPath (str "00:00:01.000")
         (thumbnail_size (to_number (width st)) (to_number (height st)))
         outputPath (log (Probe inputPath) s)) /\
  (ffprobe w (files s !! inputPath) = inr [] ->
     generateThumbnail en w inputPath outputPath s =
       (Throw (TypeError_destructure en (str "stream") undefined (str "width")),
        log (Probe inputPath) s)).
Proof.
  unfold generateThumbnail, bind, getVideoDimensions.
  destruct (ffprobe w (files s !! inputPath)) as [err|streams].
  - cbn [fst]. repeat split; try discriminate; intros; congruence.
  - cbn [fst]. repeat split; try discriminate.
    + intros ? [= <-]. reflexivity.
    + intros ? ? [= ->]. reflexivity.
    + intros [= ->]. reflexivity.
Qed.

Lemma getVideoDimensions_returns_first_stream_witness :
  fst (getVideoDimensions audio_only_world (str "/tmp/input.mp4") initial_state)
    = Normal (Some audio_stream) /\
  generateThumbnail sample_engine audio_only_world (str "/tmp/input.mp4")
      (str "/tmp/thumbnail.jpg") initial_state =
    screenshots audio_only_world (str "/tmp/input.mp4") (str "00:00:01.000")
      (thumbnail_size (to_number None) (to_number None))
      (str "/tmp/thumbnail.jpg") (log (Probe (str "/tmp/input.mp4")) initial_state).
Proof.
  destruct (getVideoDimensions_returns_first_stream sample_engine audio_only_world
              (str "/tmp/input.mp4") (str "/tmp/thumbnail.jpg") initial_state)
    as (_ & Hfirst & _ & Hsize & _).
  split.
  - apply (Hfirst [audio_stream]). reflexivity.
  - apply (Hsize audio_stream []). reflexivity.
Defined.

(** ** Further properties of the handler *)

Section Invocation.
Context (en : engine) (w : world) (isLambda : bool) (__dirname : jsstring).

#[local] Abbreviation tmpVideoPath :=
  (path_join (tmpDir isLambda __dirname) (str "input.mp4")).
#[local] Abbreviation tmpThumbnailPath :=
  (path_join (tmpDir isLambda __dirname) (str "thumbnail.jpg")).
#[local] Abbreviation run := (handler en w isLambda __dirname).

Ltac simpl_run := cbn [files store trace log set_files write_left fst snd].
Ltac unfold_run :=
  unfold stages, bind, send_GetObject, pipe_to_file, screenshots,
    replace_filepath, send_PutObject, unlinkSync, ret, throw.

(** How far the stages get: the calls made are the last [6 - n] of the
    pipeline; the store gains the thumbnail exactly when all of them were
    made; no other local file is touched. *)
Lemma stages_shape bucket filepath s :
  exists n : nat,
    trace (snd (stages en w isLambda __dirname bucket filepath s)) =
      drop n (pipeline (tmpDir isLambda __dirname) bucket filepath) ++ trace s /\
    (n <= 5)%nat /\ n <> 1%nat /\
    (n = 0%nat <->
     exists r, fst (stages en w isLambda __dirname bucket filepath s) = Normal r) /\
    (n = 0%nat ->
     exists jpeg,
       store (snd (stages en w isLambda __dirname bucket filepath s)) =
         store s ++ [ {| Bucket := bucket; Key := destination_key filepath;
                         Body := jpeg; ContentType := str "image/jpeg" |} ]) /\
    (n <> 0%nat ->
     store (snd (stages en w isLambda __dirname bucket filepath s)) = store s) /\
    (forall path, path <> tmpVideoPath -> path <> tmpThumbnailPath ->
       files (snd (stages en w isLambda __dirname bucket filepath s)) !! path =
       files s !! path) /\
    ((n <= 2)%nat -> exists key, filepath = Some (JStr key)).
Proof.
  pose proof (staged_paths_distinct isLambda __dirname) as Hne.
  assert (Hfalse : forall c : completion response,
            (exists r, c = Normal r) -> match c with Normal _ => True | _ => False end).
  { intros c [r ->]. exact I. }
  assert (Hother : forall frame data path,
            path <> tmpVideoPath -> path <> tmpThumbnailPath ->
            write_left tmpThumbnailPath frame (<[tmpVideoPath := data]> (files s)) !! path
              = files s !! path).
  { intros frame data path Hv Ht. destruct frame; cbn [write_left];
      rewrite ?lookup_insert_ne by congruence; reflexivity. }
  unfold_run.
  destruct (s3_get_object w bucket filepath) as [e|[data|received e]].
  - exists 5%nat. simpl_run.
    repeat split; try reflexivity; try lia; try discriminate; try (eexists; reflexivity).
    intros H; apply Hfalse in H; destruct H.
  - simpl_run.
    destruct (write_stream w tmpVideoPath data) as [|e leftover].
    + simpl_run. rewrite lookup_insert_eq.
      destruct (ffmpeg_screenshots w (Some data) (str "50%") (360%float, 640%float))
        as [[e leftover]|frame].
      * exists 3%nat. simpl_run.
        repeat split; try reflexivity; try lia; try discriminate; try (eexists; reflexivity).
        -- intros H; apply Hfalse in H; destruct H.
        -- apply Hother.
      * simpl_run.
        destruct filepath as [[| | |key| |]|];
          try (exists 3%nat; simpl_run;
               repeat split; try reflexivity; try lia; try discriminate; try (eexists; reflexivity);
               [ intros H; apply Hfalse in H; destruct H | apply Hother ]).
        simpl_run.
        assert (Hvideo :
          write_left tmpThumbnailPath frame (<[tmpVideoPath := data]> (files s))
            !! tmpVideoPath = Some data).
        { destruct frame; cbn [write_left];
            rewrite ?(lookup_insert_ne _ tmpThumbnailPath tmpVideoPath)
              by (intros E; apply Hne; symmetry; exact E);
            apply lookup_insert_eq. }
        destruct (write_left tmpThumbnailPath frame (<[tmpVideoPath := data]> (files s))
                    !! tmpThumbnailPath) as [jpeg|] eqn:Hthumb.
        -- destruct (s3_put_object w bucket (thumbnailKey key) jpeg (str "image/jpeg"))
             as [e|].
           ++ exists 2%nat. simpl_run.
              repeat split; try reflexivity; try lia; try discriminate;
                try (eexists; reflexivity).
              ** intros H; apply Hfalse in H; destruct H.
              ** apply Hother.
           ++ simpl_run. rewrite Hvideo. simpl_run.
              rewrite lookup_delete_ne, Hthumb by exact Hne. simpl_run.
              exists 0%nat.
              repeat split; try reflexivity; try lia; try congruence; eauto.
              intros path Hv Ht.
              rewrite !lookup_delete_ne by congruence. apply Hother; assumption.
        -- destruct (s3_put_unreadable w bucket (thumbnailKey key) tmpThumbnailPath);
             exists 2%nat; simpl_run;
             (repeat split; try reflexivity; try lia; try discriminate;
              try (eexists; reflexivity);
              [ intros H; apply Hfalse in H; destruct H | apply Hother ]).
    + exists 4%nat. simpl_run.
      repeat split; try reflexivity; try lia; try discriminate; try (eexists; reflexivity).
      * intros H; apply Hfalse in H; destruct H.
      * intros path Hv Ht. destruct leftover; cbn [write_left];
          rewrite ?lookup_insert_ne by congruence; reflexivity.
  - exists 4%nat. simpl_run.
    repeat split; try reflexivity; try lia; try discriminate; try (eexists; reflexivity).
    + intros H; apply Hfalse in H; destruct H.
    + intros path Hv Ht. rewrite lookup_insert_ne by congruence. reflexivity.
Qed.

(** The catch block calls [existsSync] and [unlinkSync] only. *)
Lemma cleanup_calls s :
  exists ops,
    cleanup en isLambda __dirname s =
      (Normal tt,
       {| files := delete tmpThumbnailPath (delete tmpVideoPath (files s));
          store := store s;
          trace := ops ++ trace s |}) /\
    forallb is_cleanup_operation ops = true.
Proof.
  pose proof (staged_paths_distinct isLambda __dirname) as Hne.
  unfold cleanup, try_catch, bind, existsSync, unlinkSync, ret. simpl_run.
  destruct (files s !! tmpVideoPath) as [v|] eqn:Hv.
  - rewrite bool_decide_true by eauto. simpl_run. rewrite Hv. simpl_run.
    rewrite lookup_delete_ne by exact Hne.
    destruct (files s !! tmpThumbnailPath) as [t|] eqn:Ht.
    + rewrite bool_decide_true by eauto. simpl_run.
      rewrite lookup_delete_ne, Ht by exact Hne. simpl_run.
      eexists [_; _; _; _]. split; reflexivity.
    + rewrite bool_decide_false by (intros [? ?]; congruence). simpl_run.
      rewrite (delete_id (delete _ _)) by (rewrite lookup_delete_ne by exact Hne; exact Ht).
      eexists [_; _; _]. split; reflexivity.
  - rewrite bool_decide_false by (intros [? ?]; congruence). simpl_run.
    rewrite (delete_id (files s)) by exact Hv.
    destruct (files s !! tmpThumbnailPath) as [t|] eqn:Ht.
    + rewrite bool_decide_true by eauto. simpl_run. rewrite Ht. simpl_run.
      eexists [_; _; _]. split; reflexivity.
    + rewrite bool_decide_false by (intros [? ?]; congruence). simpl_run.
      rewrite delete_id by exact Ht.
      eexists [_; _]. split; reflexivity.
Qed.

(** An accepted event carries a payload that lines 101 and 106 print and
    whose two fields are truthy. *)
Lemma accepted_payload event :
  accepted en event = true ->
  stringify_throws en event = None /\
  exists payload,
    request_payload event = Some payload /\
    stringify_throws en payload = None /\
    event_bucket event = request_bucket payload /\
    event_filepath event = request_filepath payload /\
    truthy (request_bucket payload) = true /\
    truthy (request_filepath payload) = true.
Proof.
  unfold accepted, event_bucket, event_filepath.
  destruct (stringify_throws en event); [discriminate|].
  destruct (request_payload event) as [payload|]; [|discriminate].
  destruct (stringify_throws en payload) eqn:L; [discriminate|].
  intros H. apply andb_true_iff in H as [Hb Hf]. eauto 10.
Qed.

(** An accepted event enters the stages with its bucket and filepath. *)
Lemma handler_accepted event s :
  accepted en event = true ->
  run event s =
    match stages en w isLambda __dirname (event_bucket event) (event_filepath event) s
    with
    | (Throw error, s1) =>
        (cleanup en isLambda __dirname ;;; ret (failure_response error)) s1
    | r => r
    end.
Proof.
  intros H.
  destruct (accepted_payload _ H) as (Hlog & payload & Hp & Hlogb & -> & -> & Hb & Hf).
  rewrite handler_unfold, Hlog, (process_payload _ _ _ _ _ _ _ Hp), Hlogb.
  rewrite validate_valid by assumption. reflexivity.
Qed.

(** Any other event never reaches them: line 101 raises and the handler
    rejects, or the [try] block raises before the first stage and the catch
    block runs. *)
Lemma handler_not_accepted event s :
  accepted en event = false ->
  (exists e, stringify_throws en event = Some e /\ run event s = (Throw e, s)) \/
  (stringify_throws en event = None /\
   exists error,
     run event s =
       (cleanup en isLambda __dirname ;;; ret (failure_response error)) s).
Proof.
  unfold accepted. rewrite handler_unfold.
  destruct (stringify_throws en event) as [e|]; [left; eauto|].
  intros H. right. split; [reflexivity|].
  destruct (request_payload event) as [payload|] eqn:Hp.
  - rewrite (process_payload _ _ _ _ _ _ _ Hp).
    destruct (stringify_throws en payload) as [e|]; [eauto|].
    destruct (validate_invalid en w isLambda __dirname payload s H) as (error & ->).
    eauto.
  - destruct (process_no_payload en w isLambda __dirname event s Hp) as (error & ->).
    eauto.
Qed.

(** Every invocation, in one statement: the calls made, the completion, the
    store and the local files. *)
Lemma handler_shape event s :
  exists (cleanup_ops : list operation) (n : nat),
    trace (snd (run event s)) =
      cleanup_ops ++
      drop n (pipeline (tmpDir isLambda __dirname)
                (event_bucket event) (event_filepath event)) ++ trace s /\
    forallb is_cleanup_operation cleanup_ops = true /\
    (n <= 6)%nat /\ n <> 1%nat /\
    (n = 6%nat <-> accepted en event = false) /\
    (n = 0%nat <-> exists r, fst (run event s) = Normal r /\ statusCode r = 200%Z) /\
    (n = 0%nat ->
     cleanup_ops = [] /\
     exists jpeg,
       store (snd (run event s)) =
         store s ++ [ {| Bucket := event_bucket event;
                         Key := destination_key (event_filepath event);
                         Body := jpeg; ContentType := str "image/jpeg" |} ]) /\
    (n <> 0%nat -> store (snd (run event s)) = store s) /\
    (n <> 0%nat -> forall r, fst (run event s) = Normal r ->
       exists error, r = failure_response error) /\
    (forall path, path <> tmpVideoPath -> path <> tmpThumbnailPath ->
       files (snd (run event s)) !! path = files s !! path) /\
    ((n <= 2)%nat -> exists key, event_filepath event = Some (JStr key)).
Proof.
  destruct (accepted en event) eqn:Hacc.
  - rewrite (handler_accepted _ _ Hacc).
    destruct (stages_shape (event_bucket event) (event_filepath event) s)
      as (n & Htr & Hn & Hn1 & Hok & Hstore & Hstore' & Hframe & Hstr).
    destruct (stages en w isLambda __dirname
                (event_bucket event) (event_filepath event) s)
      as [[r|error|] s1] eqn:Es; cbn [fst snd] in *.
    + assert (n = 0%nat) as -> by (apply Hok; eauto).
      destruct (stages_normal _ _ _ _ _ _ _ _ _ Es) as (key & _ & -> & _).
      exists [], 0%nat. cbn [app].
      split; [exact Htr|]. split; [reflexivity|].
      split; [lia|]. split; [lia|]. split; [split; [lia|congruence]|].
      split; [split; [eauto|reflexivity]|].
      split; [intros _; split; [reflexivity|apply Hstore; reflexivity]|].
      split; [congruence|]. split; [congruence|]. split; [exact Hframe|exact Hstr].
    + assert (n <> 0%nat).
      { intros ->. destruct Hok as [Hok _]. destruct (Hok eq_refl); discriminate. }
      destruct (cleanup_calls s1) as (ops & C & Hops).
      unfold bind, ret. rewrite C. simpl_run.
      exists ops, n. rewrite Htr.
      split; [reflexivity|]. split; [exact Hops|].
      split; [lia|]. split; [exact Hn1|]. split; [split; [lia|congruence]|].
      split; [split; [congruence|intros (r & [= <-] & H'); discriminate H']|].
      split; [congruence|]. split; [auto|].
      split; [intros _ r [= <-]; eauto|].
      split; [|exact Hstr].
      intros path Hv Ht. rewrite !lookup_delete_ne by congruence. auto.
    + assert (n <> 0%nat).
      { intros ->. destruct Hok as [Hok _]. destruct (Hok eq_refl); discriminate. }
      exists [], n. cbn [app].
      split; [exact Htr|]. split; [reflexivity|].
      split; [lia|]. split; [exact Hn1|]. split; [split; [lia|congruence]|].
      split; [split; [congruence|intros (r & H' & _); discriminate H']|].
      split; [congruence|]. split; [auto|].
      split; [intros _ r; discriminate|]. split; [exact Hframe|exact Hstr].
  - destruct (handler_not_accepted _ s Hacc) as [(e & _ & ->)|(_ & error & ->)].
    + exists [], 6%nat. cbn [drop pipeline app fst snd].
      split; [reflexivity|]. split; [reflexivity|].
      split; [lia|]. split; [lia|]. split; [tauto|].
      split; [split; [lia|intros (r & H & _); discriminate H]|].
      split; [lia|]. split; [reflexivity|].
      split; [intros _ r; discriminate|].
      split; [reflexivity|lia].
    + destruct (cleanup_calls s) as (ops & C & Hops).
      unfold bind, ret. rewrite C. simpl_run.
      exists ops, 6%nat. cbn [drop pipeline app].
      split; [reflexivity|]. split; [exact Hops|].
      split; [lia|]. split; [lia|]. split; [tauto|].
      split; [split; [lia|intros (r & [= <-] & H); discriminate H]|].
      split; [lia|]. split; [reflexivity|].
      split; [intros _ r [= <-]; eauto|].
      split; [|lia].
      intros path Hv Ht. rewrite !lookup_delete_ne by congruence. reflexivity.
Qed.

(** The handler calls its collaborators in one fixed order and stops at the
    first failure: the calls of an invocation are the first [6 - n] calls of
    GetObject, createWriteStream, screenshots, PutObject, unlink of the
    video, unlink of the thumbnail, followed, when the [try] block raised,
    by the [existsSync] and [unlinkSync] calls of the catch block.  No call
    of the sequence is made exactly when the event is not accepted (line 101
    or line 106 raises, or the request fails the check of line 111); all of
    them are made exactly when the response has status 200, and the
    PutObject is reached only for a filepath that is a string. *)
Theorem handler_calls_in_order event s :
  exists (cleanup_ops : list operation) (n : nat),
    trace (snd (run event s)) =
      cleanup_ops ++
      drop n (pipeline (tmpDir isLambda __dirname)
                (event_bucket event) (event_filepath event)) ++ trace s /\
    forallb is_cleanup_operation cleanup_ops = true /\
    (n <= 6)%nat /\ n <> 1%nat /\
    (n = 6%nat <-> accepted en event = false) /\
    (n = 0%nat <-> exists r, fst (run event s) = Normal r /\ statusCode r = 200%Z) /\
    ((n <= 2)%nat -> exists key, event_filepath event = Some (JStr key)).
Proof.
  destruct (handler_shape event s)
    as (ops & n & H1 & H2 & H3 & H4 & H5 & H6 & _ & _ & _ & _ & H7).
  exists ops, n. auto 10.
Qed.

(** The handler never probes the video and never computes a size from its
    geometry: the only decoding call of an invocation is the screenshot at
    50% of the duration with the fixed size 360x640, from the staged video
    to the staged thumbnail. *)
Theorem handler_only_decoding_call event s :
  exists ops,
    trace (snd (run event s)) = ops ++ trace s /\
    forall o, o ∈ ops -> is_decoding_operation o = true ->
      o = Screenshots tmpVideoPath (str "50%") (360%float, 640%float)
            tmpThumbnailPath.
Proof.
  destruct (handler_shape event s) as (ops & n & Htr & Hops & Hn & _).
  eexists. split; [rewrite Htr, app_assoc; reflexivity|].
  intros o Ho Hd. apply elem_of_app in Ho as [Ho|Ho].
  - rewrite forallb_forall in Hops. apply list_elem_of_In, Hops in Ho.
    destruct o; discriminate.
  - assert (Hin : o ∈ pipeline (tmpDir isLambda __dirname)
                       (event_bucket event) (event_filepath event)).
    { apply list_elem_of_In. apply list_elem_of_In in Ho.
      rewrite <- (take_drop n (pipeline _ _ _)). apply in_or_app. right. exact Ho. }
    unfold pipeline in Hin.
    repeat (apply elem_of_cons in Hin as [->|Hin]; try discriminate Hd; try reflexivity).
    inversion Hin.
Qed.


(** No local file other than the two staged ones is created, changed or
    removed by an invocation. *)
Theorem handler_keeps_other_files event s path :
  path <> path_join (tmpDir isLambda __dirname) (str "input.mp4") ->
  path <> path_join (tmpDir isLambda __dirname) (str "thumbnail.jpg") ->
  files (snd (handler en w isLambda __dirname event s)) !! path = files s !! path.
Proof.
  destruct (handler_shape event s) as (ops & n & H). apply H.
Qed.

(** When the logging of the event on line 101 raises, the handler rejects
    with that error: the statement stands before the [try], so no response
    is built, the catch block does not run, nothing is called and nothing
    changes. *)
Theorem handler_event_log_failure event e s :
  stringify_throws en event = Some e ->
  handler en w isLambda __dirname event s = (Throw e, s).
Proof. intros H. rewrite handler_unfold, H. reflexivity. Qed.

(** When the logging of the parsed body on line 106 raises, the request is
    answered with the failure envelope of that error, valid or not: no
    stage is attempted, the store is unchanged and the only calls are those
    of the catch block. *)
Theorem handler_body_log_failure event payload e s :
  stringify_throws en event = None ->
  request_payload event = Some payload ->
  stringify_throws en payload = Some e ->
  fst (run event s) = Normal (failure_response e) /\
  store (snd (run event s)) = store s /\
  exists cleanup_ops,
    trace (snd (run event s)) = cleanup_ops ++ trace s /\
    forallb is_cleanup_operation cleanup_ops = true.
Proof.
  intros Hlog Hp Hlogb.
  rewrite handler_unfold, Hlog, (process_payload _ _ _ _ _ _ _ Hp), Hlogb.
  destruct (cleanup_calls s) as (ops & C & Hops).
  unfold bind, ret. rewrite C. simpl_run. eauto.
Qed.

(** A GetObject that the store rejects: the response is the failure
    envelope of that error; nothing was staged, decoded or uploaded. *)
Theorem handler_get_failure event error s :
  accepted en event = true ->
  s3_get_object w (event_bucket event) (event_filepath event) = inl error ->
  fst (run event s) = Normal (failure_response error) /\
  store (snd (run event s)) = store s /\
  exists cleanup_ops,
    trace (snd (run event s)) =
      cleanup_ops ++
      S3Get (event_bucket event) (event_filepath event) :: trace s /\
    forallb is_cleanup_operation cleanup_ops = true.
Proof.
  intros Hacc Hget.
  rewrite (handler_accepted _ _ Hacc).
  unfold_run. rewrite Hget.
  match goal with
  | |- context [cleanup en isLambda __dirname ?s1] =>
      destruct (cleanup_calls s1) as (ops & C & Hops); rewrite C
  end.
  simpl_run. eauto.
Qed.


(** A filepath that is truthy but not a string passes the validation: the
    video is requested with it and the extraction runs; the TypeError of
    [filepath.replace] comes only then, and nothing is uploaded. *)
Theorem handler_filepath_not_a_string event filepath video frame s :
  accepted en event = true ->
  event_filepath event = Some filepath ->
  (forall key, filepath <> JStr key) ->
  s3_get_object w (event_bucket event) (Some filepath) = inr (BodyEnds video) ->
  write_stream w tmpVideoPath video = WriteFinishes ->
  ffmpeg_screenshots w (Some video) (str "50%") (360%float, 640%float) = inr frame ->
  fst (run event s) = Normal (failure_response (TypeError_not_a_function en)) /\
  store (snd (run event s)) = store s /\
  exists cleanup_ops,
    trace (snd (run event s)) =
      cleanup_ops ++
      drop 3 (pipeline (tmpDir isLambda __dirname)
                (event_bucket event) (Some filepath)) ++ trace s /\
    forallb is_cleanup_operation cleanup_ops = true.
Proof.
  intros Hacc Hf Hns Hget Hwrite Hshot.
  rewrite (handler_accepted _ _ Hacc), Hf.
  unfold_run. rewrite Hget. simpl_run. rewrite Hwrite. simpl_run.
  rewrite lookup_insert_eq, Hshot. simpl_run.
  destruct filepath as [| | |key| |]; try (exfalso; eapply Hns; reflexivity);
    match goal with
    | |- context [cleanup en isLambda __dirname ?s1] =>
        destruct (cleanup_calls s1) as (ops & C & Hops); rewrite C
    end;
    simpl_run; eauto.
Qed.

(** A body stream that fails during the download of an accepted request:
    the invocation never completes; the part received stays in the staged
    video file, the catch block does not run, nothing is decoded or
    uploaded. *)
Theorem handler_broken_download event received error s :
  accepted en event = true ->
  s3_get_object w (event_bucket event) (event_filepath event)
    = inr (BodyFails received error) ->
  fst (run event s) = Pending /\
  files (snd (run event s)) !! tmpVideoPath = Some received /\
  store (snd (run event s)) = store s /\
  trace (snd (run event s)) =
    CreateWriteStream tmpVideoPath
    :: S3Get (event_bucket event) (event_filepath event) :: trace s.
Proof.
  intros Hacc Hget.
  rewrite (handler_accepted _ _ Hacc).
  rewrite (stages_body_fails _ _ _ _ _ _ _ _ _ Hget). simpl_run.
  repeat split. apply lookup_insert_eq.
Qed.



(** Events that carry no usable payload are answered, when line 101 prints
    them, with the failure envelope of the error the engine raises: a
    [null] event with the TypeError of the member access [event.body]; a
    missing body and a [null] body with the TypeError of the destructuring
    on line 108, worded for [undefined] and for [null]; a body that is not
    JSON text with the SyntaxError of [JSON.parse]. *)
Theorem handler_malformed_event event s :
  stringify_throws en event = None ->
  (event = JNull ->
   fst (run event s) =
     Normal (failure_response (TypeError_property en (Some JNull) (str "body")))) /\
  (event <> JNull -> get_property event (str "body") = undefined ->
   fst (run event s) =
     Normal (failure_response
               (TypeError_destructure en (str "body") undefined (str "bucket")))) /\
  (get_property event (str "body") = Some JNull ->
   stringify_throws en JNull = None ->
   fst (run event s) =
     Normal (failure_response
               (TypeError_destructure en (str "body") (Some JNull) (str "bucket")))) /\
  (forall text,
     get_property event (str "body") = Some (JStr text) -> JSON.parse text = None ->
     fst (run event s) = Normal (failure_response (SyntaxError en text))).
Proof.
  intros Hlog.
  rewrite handler_completion, Hlog. unfold process, bind.
  split; [|split; [|split]].
  - intros ->. reflexivity.
  - intros Hnn Hbody. destruct event; try congruence;
      cbn [read_property ret]; rewrite Hbody; reflexivity.
  - intros Hbody Hnull. destruct event; try discriminate Hbody.
    cbn [read_property ret]. rewrite Hbody. cbn [parse_body ret log_json].
    rewrite Hnull. reflexivity.
  - intros text Hbody Hparse.
    destruct event; try discriminate Hbody;
      cbn [read_property ret]; rewrite Hbody; cbn [parse_body]; rewrite Hparse;
      reflexivity.
Qed.

(** The check of line 111 is on truthiness: a payload whose bucket or
    filepath is missing, [null], [false], zero or the empty string is
    answered, when lines 101 and 106 print, with the 'Missing required
    parameters' error. *)
Theorem handler_falsy_field event payload s :
  stringify_throws en event = None ->
  request_payload event = Some payload -> payload <> JNull ->
  stringify_throws en payload = None ->
  truthy (request_bucket payload) = false \/
  truthy (request_filepath payload) = false ->
  fst (run event s) = Normal (failure_response (new_Error en missing_parameters)).
Proof.
  intros Hlog Hp Hnn Hlogb Hfalsy.
  rewrite handler_completion, Hlog, (process_payload _ _ _ _ _ _ _ Hp), Hlogb.
  unfold validate, bind, request_bucket, request_filepath in *.
  destruct payload; try congruence; cbn [destructure get_property ret] in *;
    try reflexivity.
  destruct Hfalsy as [-> | ->]; rewrite ?orb_true_r; reflexivity.
Qed.
End Invocation.

(** ** Further properties of the derived key *)

(** The pattern cannot match across a slash: the slash is outside the
    class. *)
Lemma extension_at_before_slash c dir rest :
  extension_at (c :: dir ++ 47 :: rest) = false.
Proof.
  cbn [extension_at]. apply andb_false_iff. right.
  destruct (dir ++ 47 :: rest) eqn:E; [reflexivity|]. rewrite <- E.
  apply not_true_is_false. rewrite forallb_forall. intros H.
  specialize (H 47). rewrite in_app_iff in H.
  specialize (H (or_intror (or_introl eq_refl))). discriminate H.
Qed.

(** The thumbnail is stored in the folder of the video: everything up to a
    slash of the source key is kept as it is. *)
Theorem thumbnailKey_keeps_folder (dir rest : jsstring) :
  thumbnailKey (dir ++ 47 :: rest) = dir ++ 47 :: thumbnailKey rest.
Proof.
  unfold thumbnailKey. induction dir as [|c dir IH].
  - reflexivity.
  - cbn [app replace_extension]. rewrite extension_at_before_slash, IH. reflexivity.
Qed.

(** The derived key equals the source key exactly for the keys that have no
    extension. *)
Theorem thumbnailKey_fixed_point (key : jsstring) :
  thumbnailKey key = key <-> (forall stem ext, ~ has_extension key stem ext).
Proof.
  split.
  - intros Hfix stem ext H.
    destruct (thumbnailKey_with_extension _ _ _ H) as [_ Hne]. contradiction.
  - apply replace_extension_without_extension.
Qed.

(** For a key with an extension the derived key never is the source key: it
    is the stem followed by [_thumbnail.jpg]. *)
Theorem thumbnailKey_differs_with_extension (key stem ext : jsstring) :
  has_extension key stem ext ->
  thumbnailKey key = stem ++ str "_thumbnail.jpg" /\ thumbnailKey key <> key.
Proof. apply thumbnailKey_with_extension. Qed.

(** The key of a thumbnail is itself rewritten: run on its own output, the
    handler would write yet another object, with the suffix twice. *)
Theorem thumbnailKey_of_thumbnail (stem : jsstring) :
  thumbnailKey (stem ++ str "_thumbnail.jpg") =
    stem ++ str "_thumbnail" ++ str "_thumbnail.jpg".
Proof.
  rewrite (app_assoc stem).
  apply (thumbnailKey_with_extension _ (stem ++ str "_thumbnail") (str "jpg")).
  split; [rewrite <- app_assoc; reflexivity|].
  split; [discriminate|].
  repeat constructor; discriminate.
Qed.

(** Two source keys that differ in their extension only share one
    thumbnail key. *)
Theorem thumbnailKey_ignores_extension (key1 key2 stem ext1 ext2 : jsstring) :
  has_extension key1 stem ext1 -> has_extension key2 stem ext2 ->
  thumbnailKey key1 = thumbnailKey key2.
Proof.
  intros H1 H2.
  destruct (thumbnailKey_with_extension _ _ _ H1) as [-> _].
  destruct (thumbnailKey_with_extension _ _ _ H2) as [-> _]. reflexivity.
Qed.

(** ** The helpers of lines 50-98 *)

Lemma Prim2SF_nan : Prim2SF nan = S754_nan.
Proof. vm_compute. reflexivity. Qed.

Lemma SFcompare_nan_r a : SFcompare a S754_nan = None.
Proof. destruct a; reflexivity. Qed.

(** A ratio that is NaN is never more than 0.1 away from the target. *)
Lemma ratio_nan_not_far (ratio : float) :
  Prim2SF ratio = S754_nan -> (0.1 <? abs (ratio - 16 / 9))%float = false.
Proof.
  intros H. rewrite ltb_spec, abs_spec, sub_spec, H. cbn [SFsub SFabs].
  unfold SFltb. rewrite SFcompare_nan_r. reflexivity.
Qed.

Lemma thumbnail_size_nan_width (h : float) :
  thumbnail_size nan h = (360%float, 640%float).
Proof.
  unfold thumbnail_size. rewrite ratio_nan_not_far, base_height; [reflexivity|].
  rewrite div_spec, Prim2SF_nan. destruct (Prim2SF h); reflexivity.
Qed.

Lemma thumbnail_size_nan_height (w0 : float) :
  thumbnail_size w0 nan = (360%float, 640%float).
Proof.
  unfold thumbnail_size. rewrite ratio_nan_not_far, base_height; [reflexivity|].
  rewrite div_spec, Prim2SF_nan. reflexivity.
Qed.

Section Helpers.
Context (en : engine) (w : world).

Ltac simpl_run := cbn [files store trace log set_files write_left fst snd].

(** When the probe fails, [generateThumbnail] rejects with the error of the
    probe and attempts no extraction: the probe is its only call and no
    file changes. *)
Theorem generateThumbnail_probe_error inputPath outputPath error s :
  ffprobe w (files s !! inputPath) = inl error ->
  generateThumbnail en w inputPath outputPath s =
    (Throw error,
     {| files := files s; store := store s; trace := Probe inputPath :: trace s |}).
Proof.
  intros H. unfold generateThumbnail, bind, getVideoDimensions. rewrite H.
  reflexivity.
Qed.

(** When the probe succeeds and ffmpeg emits ['end'], [generateThumbnail]
    fulfils without looking at the output path: a frame that was written is
    there, and when none was written the path holds what it held before.
    Neither the store nor any other file is touched; the frame asked for is
    the one at second 1, in the size computed from the first stream. *)
Theorem generateThumbnail_on_end inputPath outputPath st rest frame s :
  ffprobe w (files s !! inputPath) = inr (st :: rest) ->
  ffmpeg_screenshots w (files s !! inputPath) (str "00:00:01.000")
    (thumbnail_size (to_number (width st)) (to_number (height st))) = inr frame ->
  let s' := snd (generateThumbnail en w inputPath outputPath s) in
  fst (generateThumbnail en w inputPath outputPath s) = Normal tt /\
  files s' !! outputPath =
    match frame with
    | Some jpeg => Some jpeg
    | None => files s !! outputPath
    end /\
  (forall path, path <> outputPath -> files s' !! path = files s !! path) /\
  store s' = store s /\
  trace s' =
    Screenshots inputPath (str "00:00:01.000")
      (thumbnail_size (to_number (width st)) (to_number (height st))) outputPath
    :: Probe inputPath :: trace s.
Proof.
  intros Hprobe Hshot.
  unfold generateThumbnail, bind, getVideoDimensions, screenshots.
  rewrite Hprobe. cbn [head]. simpl_run. rewrite Hshot. simpl_run.
  repeat split.
  - destruct frame; cbn [write_left]; [apply lookup_insert_eq|reflexivity].
  - intros path Hne. destruct frame; cbn [write_left]; [|reflexivity].
    apply lookup_insert_ne. congruence.
Qed.

(** A first stream without width or height (an audio stream): the size
    requested from ffmpeg is the default 360x640. *)
Theorem generateThumbnail_missing_dimensions inputPath outputPath st rest s :
  ffprobe w (files s !! inputPath) = inr (st :: rest) ->
  width st = None \/ height st = None ->
  generateThumbnail en w inputPath outputPath s =
    screenshots w inputPath (str "00:00:01.000") (360%float, 640%float) outputPath
      (log (Probe inputPath) s).
Proof.
  intros Hprobe Hdim.
  unfold generateThumbnail, bind, getVideoDimensions. rewrite Hprobe. cbn [head].
  destruct Hdim as [-> | ->]; cbn [to_number default];
    rewrite ?thumbnail_size_nan_width, ?thumbnail_size_nan_height; reflexivity.
Qed.

(** [streamS3ToFile] copies the object byte for byte: when the body ends
    and the write finishes, the output file holds exactly the data of the
    body, and nothing else changes. *)
Theorem streamS3ToFile_copies bucket key outputPath data s :
  s3_get_object w bucket key = inr (BodyEnds data) ->
  write_stream w outputPath data = WriteFinishes ->
  streamS3ToFile w bucket key outputPath s =
    (Normal tt,
     {| files := <[outputPath := data]> (files s);
        store := store s;
        trace := CreateWriteStream outputPath :: S3Get bucket key :: trace s |}).
Proof.
  intros Hget Hwrite.
  unfold streamS3ToFile, bind, send_GetObject, streamPipeline.
  rewrite Hget. simpl_run. rewrite Hwrite. reflexivity.
Qed.

(** [streamS3ToFile] rejects with the error of a failed GetObject before it
    opens the output file. *)
Theorem streamS3ToFile_get_error bucket key outputPath error s :
  s3_get_object w bucket key = inl error ->
  streamS3ToFile w bucket key outputPath s =
    (Throw error,
     {| files := files s; store := store s; trace := S3Get bucket key :: trace s |}).
Proof.
  intros Hget. unfold streamS3ToFile, bind, send_GetObject. rewrite Hget.
  reflexivity.
Qed.

(** The download written out in the handler (lines 123-143) and the helper
    [streamS3ToFile] do the same, except when the body stream fails: the
    helper rejects with the error of the stream, the handler's download
    stays pending; both leave the same files and calls behind. *)
Theorem download_and_streamS3ToFile bucket key path s :
  let download :=
    (response <- send_GetObject w bucket key ;; pipe_to_file w response path) s in
  match s3_get_object w bucket key with
  | inr (BodyFails received error) =>
      fst download = Pending /\
      fst (streamS3ToFile w bucket key path s) = Throw error /\
      snd download = snd (streamS3ToFile w bucket key path s)
  | _ => download = streamS3ToFile w bucket key path s
  end.
Proof.
  unfold streamS3ToFile, bind, send_GetObject, pipe_to_file, streamPipeline.
  destruct (s3_get_object w bucket key) as [e|[data|received e]]; simpl_run;
    try reflexivity.
  repeat split.
Qed.
End Helpers.

(** ** The further properties at concrete inputs *)

Lemma handler_keeps_other_files_witness :
  files (snd (handler sample_engine sample_world true [] (text_event test_request)
                state_with_kept_file)) !! kept_file
  = files state_with_kept_file !! kept_file.
Proof.
  apply (handler_keeps_other_files sample_engine sample_world true []
           (text_event test_request) state_with_kept_file kept_file);
    vm_compute; discriminate.
Defined.

Lemma handler_event_log_failure_witness :
  handler sample_engine sample_world true [] (parsed_event deep_request) initial_state
    = (Throw stack_overflow, initial_state).
Proof.
  apply (handler_event_log_failure sample_engine sample_world true []
           (parsed_event deep_request) stack_overflow initial_state).
  vm_compute. reflexivity.
Defined.

Lemma handler_body_log_failure_witness :
  fst (handler sample_engine sample_world true [] (text_event deep_request)
         initial_state) = Normal (failure_response stack_overflow) /\
  store (snd (handler sample_engine sample_world true [] (text_event deep_request)
                initial_state)) = store initial_state /\
  exists cleanup_ops,
    trace (snd (handler sample_engine sample_world true [] (text_event deep_request)
                  initial_state)) = cleanup_ops ++ trace initial_state /\
    forallb is_cleanup_operation cleanup_ops = true.
Proof.
  apply (handler_body_log_failure sample_engine sample_world true []
           (text_event deep_request) deep_request stack_overflow initial_state);
    vm_compute; reflexivity.
Defined.

Lemma handler_get_failure_witness :
  fst (handler sample_engine missing_object_world true [] (text_event test_request)
         initial_state) = Normal (failure_response no_such_key) /\
  store (snd (handler sample_engine missing_object_world true []
                (text_event test_request) initial_state)) = store initial_state /\
  exists cleanup_ops,
    trace (snd (handler sample_engine missing_object_world true []
                  (text_event test_request) initial_state)) =
      cleanup_ops ++
      S3Get (event_bucket (text_event test_request))
        (event_filepath (text_event test_request))
      :: trace initial_state /\
    forallb is_cleanup_operation cleanup_ops = true.
Proof.
  apply (handler_get_failure sample_engine missing_object_world true []
           (text_event test_request) no_such_key initial_state);
    vm_compute; reflexivity.
Defined.


Lemma handler_filepath_not_a_string_witness :
  fst (handler sample_engine sample_world true []
         (parsed_event numeric_filepath_request) initial_state)
    = Normal (failure_response (TypeError_not_a_function sample_engine)) /\
  store (snd (handler sample_engine sample_world true []
                (parsed_event numeric_filepath_request) initial_state))
    = store initial_state /\
  exists cleanup_ops,
    trace (snd (handler sample_engine sample_world true []
                  (parsed_event numeric_filepath_request) initial_state)) =
      cleanup_ops ++
      drop 3 (pipeline (tmpDir true [])
                (event_bucket (parsed_event numeric_filepath_request))
                (Some (JNum 5 0))) ++ trace initial_state /\
    forallb is_cleanup_operation cleanup_ops = true.
Proof.
  apply (handler_filepath_not_a_string sample_engine sample_world true []
           (parsed_event numeric_filepath_request)
           (JNum 5 0) sample_video (Some sample_jpeg) initial_state);
    try (vm_compute; reflexivity); discriminate.
Defined.

Lemma handler_broken_download_witness :
  fst (handler sample_engine broken_download_world true [] (text_event test_request)
         initial_state) = Pending /\
  files (snd (handler sample_engine broken_download_world true []
                (text_event test_request) initial_state))
    !! path_join (tmpDir true []) (str "input.mp4") = Some [Byte.x00; Byte.x00] /\
  store (snd (handler sample_engine broken_download_world true []
                (text_event test_request) initial_state)) = store initial_state /\
  trace (snd (handler sample_engine broken_download_world true []
                (text_event test_request) initial_state)) =
    CreateWriteStream (path_join (tmpDir true []) (str "input.mp4"))
    :: S3Get (event_bucket (text_event test_request))
         (event_filepath (text_event test_request))
    :: trace initial_state.
Proof.
  apply (handler_broken_download sample_engine broken_download_world true []
           (text_event test_request) [Byte.x00; Byte.x00]
           connection_reset initial_state);
    vm_compute; reflexivity.
Defined.



Lemma handler_malformed_event_witness :
  (parsed_event JNull = JNull ->
   fst (handler sample_engine sample_world true [] (parsed_event JNull) initial_state) =
     Normal (failure_response
               (TypeError_property sample_engine (Some JNull) (str "body")))) /\
  (parsed_event JNull <> JNull ->
   get_property (parsed_event JNull) (str "body") = undefined ->
   fst (handler sample_engine sample_world true [] (parsed_event JNull) initial_state) =
     Normal (failure_response
               (TypeError_destructure sample_engine (str "body") undefined
                  (str "bucket")))) /\
  (get_property (parsed_event JNull) (str "body") = Some JNull ->
   stringify_throws sample_engine JNull = None ->
   fst (handler sample_engine sample_world true [] (parsed_event JNull) initial_state) =
     Normal (failure_response
               (TypeError_destructure sample_engine (str "body") (Some JNull)
                  (str "bucket")))) /\
  (forall text,
     get_property (parsed_event JNull) (str "body") = Some (JStr text) ->
     JSON.parse text = None ->
     fst (handler sample_engine sample_world true [] (parsed_event JNull) initial_state) =
       Normal (failure_response (SyntaxError sample_engine text))).
Proof.
  apply (handler_malformed_event sample_engine sample_world true []
           (parsed_event JNull) initial_state).
  reflexivity.
Defined.

Lemma handler_falsy_field_witness :
  fst (handler sample_engine sample_world true []
         (parsed_event zero_bucket_request) initial_state)
    = Normal (failure_response (new_Error sample_engine missing_parameters)).
Proof.
  apply (handler_falsy_field sample_engine sample_world true []
           (parsed_event zero_bucket_request) zero_bucket_request initial_state).
  - reflexivity.
  - reflexivity.
  - discriminate.
  - reflexivity.
  - left. reflexivity.
Defined.

Lemma thumbnailKey_differs_with_extension_witness :
  thumbnailKey (str "videos/a.mp4") = str "videos/a" ++ str "_thumbnail.jpg" /\
  thumbnailKey (str "videos/a.mp4") <> str "videos/a.mp4".
Proof.
  apply (thumbnailKey_differs_with_extension (str "videos/a.mp4") (str "videos/a")
           (str "mp4")).
  split; [reflexivity|]. split; [discriminate|].
  repeat constructor; discriminate.
Defined.

Lemma thumbnailKey_ignores_extension_witness :
  thumbnailKey (str "videos/a.mp4") = thumbnailKey (str "videos/a.mov").
Proof.
  apply (thumbnailKey_ignores_extension (str "videos/a.mp4") (str "videos/a.mov")
           (str "videos/a") (str "mp4") (str "mov"));
    (split; [reflexivity|]; split; [discriminate|];
     repeat constructor; discriminate).
Defined.

Lemma generateThumbnail_probe_error_witness :
  generateThumbnail sample_engine broken_probe_world (str "/tmp/input.mp4")
      (str "/tmp/thumbnail.jpg") initial_state =
    (Throw decoder_error,
     {| files := files initial_state; store := store initial_state;
        trace := Probe (str "/tmp/input.mp4") :: trace initial_state |}).
Proof.
  apply (generateThumbnail_probe_error sample_engine broken_probe_world
           (str "/tmp/input.mp4") (str "/tmp/thumbnail.jpg") decoder_error
           initial_state).
  reflexivity.
Defined.

Lemma generateThumbnail_on_end_witness :
  let s' := snd (generateThumbnail sample_engine short_video_world (str "/tmp/input.mp4")
                   (str "/tmp/thumbnail.jpg") state_with_stale_thumbnail) in
  fst (generateThumbnail sample_engine short_video_world (str "/tmp/input.mp4")
         (str "/tmp/thumbnail.jpg") state_with_stale_thumbnail) = Normal tt /\
  files s' !! str "/tmp/thumbnail.jpg" =
    match @None bytes with
    | Some jpeg => Some jpeg
    | None => files state_with_stale_thumbnail !! str "/tmp/thumbnail.jpg"
    end /\
  (forall path, path <> str "/tmp/thumbnail.jpg" ->
     files s' !! path = files state_with_stale_thumbnail !! path) /\
  store s' = store state_with_stale_thumbnail /\
  trace s' =
    Screenshots (str "/tmp/input.mp4") (str "00:00:01.000")
      (thumbnail_size (to_number (width video_stream))
         (to_number (height video_stream))) (str "/tmp/thumbnail.jpg")
    :: Probe (str "/tmp/input.mp4") :: trace state_with_stale_thumbnail.
Proof.
  apply (generateThumbnail_on_end sample_engine short_video_world
           (str "/tmp/input.mp4") (str "/tmp/thumbnail.jpg") video_stream
           [] None state_with_stale_thumbnail);
    reflexivity.
Defined.

Lemma generateThumbnail_missing_dimensions_witness :
  generateThumbnail sample_engine audio_only_world (str "/tmp/input.mp4")
      (str "/tmp/thumbnail.jpg") initial_state =
    screenshots audio_only_world (str "/tmp/input.mp4") (str "00:00:01.000")
      (360%float, 640%float) (str "/tmp/thumbnail.jpg")
      (log (Probe (str "/tmp/input.mp4")) initial_state).
Proof.
  apply (generateThumbnail_missing_dimensions sample_engine audio_only_world
           (str "/tmp/input.mp4") (str "/tmp/thumbnail.jpg") audio_stream []
           initial_state).
  - reflexivity.
  - left. reflexivity.
Defined.

Lemma streamS3ToFile_copies_witness :
  streamS3ToFile sample_world (Some (JStr (str "test-bucket")))
      (Some (JStr (str "test/test-video.mp4"))) (str "/tmp/input.mp4") initial_state =
    (Normal tt,
     {| files := <[str "/tmp/input.mp4" := sample_video]> (files initial_state);
        store := store initial_state;
        trace := CreateWriteStream (str "/tmp/input.mp4")
                 :: S3Get (Some (JStr (str "test-bucket")))
                      (Some (JStr (str "test/test-video.mp4")))
                 :: trace initial_state |}).
Proof.
  apply (streamS3ToFile_copies sample_world (Some (JStr (str "test-bucket")))
           (Some (JStr (str "test/test-video.mp4"))) (str "/tmp/input.mp4")
           sample_video initial_state);
    reflexivity.
Defined.

Lemma streamS3ToFile_get_error_witness :
  streamS3ToFile missing_object_world (Some (JStr (str "test-bucket")))
      (Some (JStr (str "test/test-video.mp4"))) (str "/tmp/input.mp4") initial_state =
    (Throw no_such_key,
     {| files := files initial_state; store := store initial_state;
        trace := S3Get (Some (JStr (str "test-bucket")))
                   (Some (JStr (str "test/test-video.mp4")))
                 :: trace initial_state |}).
Proof.
  apply (streamS3ToFile_get_error missing_object_world
           (Some (JStr (str "test-bucket"))) (Some (JStr (str "test/test-video.mp4")))
           (str "/tmp/input.mp4") no_such_key initial_state).
  reflexivity.
Defined.
